(** * verify_rss: the RSS feed validation rules of [scripts/verify_rss.go]

    The development has these parts.

    - [Module time]: the part of Go's standard package [time] that the
      validator calls ([time.Parse], [Time.Format], [Time.Equal]),
      specialised to the one layout it passes,
      [time.RFC1123Z = "Mon, 02 Jan 2006 15:04:05 -0700"].  The package is
      imported by the program and is not part of its repository; the model
      follows [format.go] and [time.go] of Go 1.17 to 1.23.  The layout is
      cut into its chunks once and for all; each chunk is parsed and
      printed by the helper the library uses for it ([lookup], [getnum],
      [atoi], [skip], [appendInt], [Date], [absDate], ...).
    - The feed model [RSS]/[Channel]/[Item] and the four rules with their
      orchestrator [Validate], function by function.
    - The program around them: [verifyRSS] and [main], over a world that
      gives the contents of files and decodes them, and over the tree that
      [filepath.Walk] walks.
    - The properties of the date validator, of each rule and of the
      orchestrator; of [verifyRSS] and [main]; and the calendar arithmetic
      that tells which dates the validator accepts. *)

From Stdlib Require Import ZArith Ascii String DecimalString Lia.
From stdpp Require Import base option list strings gmap.

Local Open Scope Z_scope.

(** ** Go strings *)

(** A Go string is a sequence of bytes; [s[i:]] and [s[:i]] are slices. *)
Module gostring.

Fixpoint drop (n : nat) (s : string) : string :=
  match n, s with
  | O, _ => s
  | S _, EmptyString => EmptyString
  | S n', String _ s' => drop n' s'
  end.

Fixpoint take (n : nat) (s : string) : string :=
  match n, s with
  | O, _ => EmptyString
  | S _, EmptyString => EmptyString
  | S n', String c s' => String c (take n' s')
  end.

Definition len (s : string) : Z := Z.of_nat (String.length s).

(** [s[i]] as a number, when [i] is in range. *)
Definition byte_at (s : string) (i : nat) : option Z :=
  match String.get i s with
  | Some c => Some (Z.of_N (N_of_ascii c))
  | None => None
  end.

Definition of_byte (b : Z) : ascii := ascii_of_N (Z.to_N b).

End gostring.

(** ** The [time] package, for the layout [RFC1123Z] *)
Module time.
Import gostring.

Definition RFC1123Z : string := "Mon, 02 Jan 2006 15:04:05 -0700".

Definition longDayNames : list string :=
  ["Sunday"; "Monday"; "Tuesday"; "Wednesday"; "Thursday"; "Friday";
   "Saturday"].

Definition shortDayNames : list string :=
  ["Sun"; "Mon"; "Tue"; "Wed"; "Thu"; "Fri"; "Sat"].

Definition shortMonthNames : list string :=
  ["Jan"; "Feb"; "Mar"; "Apr"; "May"; "Jun"; "Jul"; "Aug"; "Sep"; "Oct";
   "Nov"; "Dec"].

Definition longMonthNames : list string :=
  ["January"; "February"; "March"; "April"; "May"; "June"; "July";
   "August"; "September"; "October"; "November"; "December"].

(** [daysBefore[m]]: days in a non-leap year before month [m+1]. *)
Definition daysBefore : list Z :=
  [0; 31; 59; 90; 120; 151; 181; 212; 243; 273; 304; 334; 365].

Definition daysBefore_at (i : Z) : Z := nth (Z.to_nat i) daysBefore 0.

Definition secondsPerMinute : Z := 60.
Definition secondsPerHour : Z := 3600.
Definition secondsPerDay : Z := 86400.
Definition secondsPerWeek : Z := 604800.
Definition daysPer400Years : Z := 146097.
Definition daysPer100Years : Z := 36524.
Definition daysPer4Years : Z := 1461.

Definition absoluteZeroYear : Z := -292277022399.
Definition absoluteToInternal : Z := -9223371966579724800.
Definition internalToAbsolute : Z := - absoluteToInternal.
Definition unixToInternal : Z := 62135596800.
Definition internalToUnix : Z := - unixToInternal.

(** *** Scanning helpers of [format.go] *)

(** [isDigit(s, i)]. *)
Definition isDigit (s : string) (i : nat) : bool :=
  match byte_at s i with
  | Some c => (48 <=? c) && (c <=? 57)
  | None => false
  end.

(** [match(s1, s2)]: equality ignoring ASCII case; the caller passes
    strings of one length. *)
Fixpoint match_ (s1 s2 : string) : bool :=
  match s1, s2 with
  | EmptyString, _ => true
  | String _ _, EmptyString => false
  | String a1 r1, String a2 r2 =>
      let c1 := Z.of_N (N_of_ascii a1) in
      let c2 := Z.of_N (N_of_ascii a2) in
      (if c1 =? c2 then true
       else
         let c1' := Z.lor c1 32 in
         let c2' := Z.lor c2 32 in
         negb (negb (c1' =? c2') || (c1' <? 97) || (122 <? c1')))
      && match_ r1 r2
  end.

(** [lookup(tab, val)]: index of the first table entry that is a prefix of
    [val] up to case, and the rest of [val]. *)
Fixpoint lookup_from (i : Z) (tab : list string) (val : string)
  : option (Z * string) :=
  match tab with
  | [] => None
  | v :: tab' =>
      if (len v <=? len val) && match_ (take (String.length v) val) v
      then Some (i, drop (String.length v) val)
      else lookup_from (i + 1) tab' val
  end.

Definition lookup (tab : list string) (val : string)
  : option (Z * string) :=
  lookup_from 0 tab val.

(** [getnum(s, fixed)]: one or two digits, exactly two when [fixed]. *)
Definition getnum (s : string) (fixed : bool) : option (Z * string) :=
  if negb (isDigit s 0) then None
  else
    match byte_at s 0, byte_at s 1 with
    | Some c0, Some c1 =>
        if negb (isDigit s 1) then
          if fixed then None else Some (c0 - 48, drop 1 s)
        else Some ((c0 - 48) * 10 + (c1 - 48), drop 2 s)
    | Some c0, None =>
        if fixed then None else Some (c0 - 48, drop 1 s)
    | None, _ => None
    end.

(** [leadingInt(s)]: the decimal prefix of [s] as a [uint64], failing on
    overflow beyond [1<<63]. *)
Fixpoint leadingInt_from (x : Z) (s : string) : option (Z * string) :=
  match s with
  | EmptyString => Some (x, s)
  | String a r =>
      let c := Z.of_N (N_of_ascii a) in
      if (c <? 48) || (57 <? c) then Some (x, s)
      else if Z.quot (2 ^ 63) 10 <? x then None
      else
        let x' := x * 10 + c - 48 in
        if 2 ^ 63 <? x' then None else leadingInt_from x' r
  end.

Definition leadingInt (s : string) : option (Z * string) :=
  leadingInt_from 0 s.

(** [atoi(s)]: an optional sign, then digits up to the end of [s]. *)
Definition atoi (s : string) : option Z :=
  let '(neg, s1) :=
    match s with
    | String a r =>
        if Ascii.eqb a "-" then (true, r)
        else if Ascii.eqb a "+" then (false, r)
        else (false, s)
    | EmptyString => (false, s)
    end in
  match leadingInt s1 with
  | Some (q, EmptyString) => Some (if neg then - q else q)
  | _ => None
  end.

(** [cutspace(s)]: [s] without its leading spaces. *)
Fixpoint cutspace (s : string) : string :=
  match s with
  | String a r => if Ascii.eqb a " " then cutspace r else s
  | EmptyString => s
  end.

(** [skip(value, prefix)]: remove [prefix] from the front of [value]; a
    run of spaces in [prefix] matches any run of spaces in [value], the
    empty one at the end of [value] included.  Every turn of the loop
    shortens [prefix], whose length bounds the number of turns. *)
Fixpoint skip_loop (turns : nat) (value prefix : string) : option string :=
  match prefix with
  | EmptyString => Some value
  | String p0 prest =>
      match turns with
      | O => None
      | S turns' =>
          if Ascii.eqb p0 " " then
            match value with
            | String v0 _ =>
                if negb (Ascii.eqb v0 " ") then None
                else skip_loop turns' (cutspace value) (cutspace prefix)
            | EmptyString =>
                skip_loop turns' (cutspace value) (cutspace prefix)
            end
          else
            match value with
            | String v0 vrest =>
                if Ascii.eqb v0 p0 then skip_loop turns' vrest prest
                else None
            | EmptyString => None
            end
      end
  end.

Definition skip (value prefix : string) : option string :=
  skip_loop (String.length prefix) value prefix.

Definition commaOrPeriod (c : Z) : bool := (c =? 46) || (c =? 44).

(** Length of the fractional-second text at the front of [value]: the
    separator, one digit, and the digits after it
    ([for n := 2; n < len(value) && isDigit(value, n); n++]). *)
Fixpoint digitsRun (s : string) : nat :=
  match s with
  | String a r =>
      let c := Z.of_N (N_of_ascii a) in
      if (48 <=? c) && (c <=? 57) then S (digitsRun r) else O
  | EmptyString => O
  end.

(** [parseNanoseconds(value, nbytes)]. *)
Definition parseNanoseconds (value : string) (nbytes : nat) : option Z :=
  match byte_at value 0 with
  | Some c =>
      if negb (commaOrPeriod c) then None
      else
        let nbytes' := if (10 <? Z.of_nat nbytes) then 10%nat else nbytes in
        let value' := if (10 <? Z.of_nat nbytes) then take 10 value
                      else value in
        match atoi (take (nbytes' - 1) (drop 1 value')) with
        | Some ns =>
            if ns <? 0 then None
            else Some (ns * 10 ^ (10 - Z.of_nat nbytes'))
        | None => None
        end
  | None => None
  end.

(** *** Calendar arithmetic of [time.go] *)

Definition isLeap (year : Z) : bool :=
  (Z.rem year 4 =? 0)
  && (negb (Z.rem year 100 =? 0) || (Z.rem year 400 =? 0)).

Definition daysIn (m year : Z) : Z :=
  if (m =? 2) && isLeap year then 29
  else daysBefore_at m - daysBefore_at (m - 1).

(** [norm(hi, lo, base)]. *)
Definition norm (hi lo base : Z) : Z * Z :=
  let '(hi1, lo1) :=
    if lo <? 0 then
      let n := Z.quot (- lo - 1) base + 1 in (hi - n, lo + n * base)
    else (hi, lo) in
  if base <=? lo1 then
    let n := Z.quot lo1 base in (hi1 + n, lo1 - n * base)
  else (hi1, lo1).

(** [daysSinceEpoch(year)]: days from the absolute epoch to January 1 of
    [year]. *)
Definition daysSinceEpoch (year : Z) : Z :=
  let y := year - absoluteZeroYear in
  let n400 := y / 400 in
  let y1 := y - 400 * n400 in
  let d1 := daysPer400Years * n400 in
  let n100 := y1 / 100 in
  let y2 := y1 - 100 * n100 in
  let d2 := d1 + daysPer100Years * n100 in
  let n4 := y2 / 4 in
  let y3 := y2 - 4 * n4 in
  let d3 := d2 + daysPer4Years * n4 in
  d3 + 365 * y3.

(** A [Time] value: the instant ([unixSec], [nsec]) and the offset east of
    UTC, in seconds, of the zone it is shown in.  [Parse] gives its result
    either a fixed zone of the offset it read or the local zone when that
    one has this very offset at this instant; both show the time with the
    same offset, the only thing a numeric-zone layout prints of a zone. *)
Record Time : Type := mkTime {
  unixSec : Z;
  nsec : Z;
  zoneOffset : Z
}.

(** [Date(year, month, day, hour, min, sec, nsec, UTC)].  The library
    computes in [uint64] and [int64]; the sums only wrap through
    intermediate values and are the integers written here whenever the
    year has four digits. *)
Definition Date (year month day hour min sec nsec : Z) : Time :=
  let '(year, m) := norm year (month - 1) 12 in
  let month := m + 1 in
  let '(sec, nsec) := norm sec nsec 1000000000 in
  let '(min, sec) := norm min sec 60 in
  let '(hour, min) := norm hour min 60 in
  let '(day, hour) := norm day hour 24 in
  let d := daysSinceEpoch year in
  let d := d + daysBefore_at (month - 1) in
  let d := if isLeap year && (3 <=? month) then d + 1 else d in
  let d := d + (day - 1) in
  let abs := d * secondsPerDay in
  let abs := abs + (hour * secondsPerHour + min * secondsPerMinute + sec) in
  let unix := abs + (absoluteToInternal + internalToUnix) in
  mkTime unix nsec 0.

(** [t.addSec(d)] followed by [t.setLoc] of a zone of offset [off]. *)
Definition addSec (t : Time) (d : Z) : Time :=
  mkTime (unixSec t + d) (nsec t) (zoneOffset t).

Definition setLoc (t : Time) (off : Z) : Time :=
  mkTime (unixSec t) (nsec t) off.

(** [t.Equal(u)]: the same instant, whatever the zones. *)
Definition Equal (t u : Time) : bool :=
  (unixSec t =? unixSec u) && (nsec t =? nsec u).

(** [t.locabs()]: the offset of [t]'s zone and the seconds since the
    absolute epoch of the wall clock in that zone, a [uint64]. *)
Definition locabs (t : Time) : Z * Z :=
  let sec := unixSec t + zoneOffset t in
  (zoneOffset t, (sec + (unixToInternal + internalToAbsolute)) mod 2 ^ 64).

(** [absWeekday(abs)]: 0 is Sunday. *)
Definition absWeekday (abs : Z) : Z :=
  let sec := (abs + 1 * secondsPerDay) mod secondsPerWeek in
  Z.quot sec secondsPerDay.

(** [absClock(abs)]. *)
Definition absClock (abs : Z) : Z * Z * Z :=
  let sec := abs mod secondsPerDay in
  let hour := Z.quot sec secondsPerHour in
  let sec := sec - hour * secondsPerHour in
  let min := Z.quot sec secondsPerMinute in
  let sec := sec - min * secondsPerMinute in
  (hour, min, sec).

(** [absDate(abs, true)]: year, month and day of the month. *)
Definition absDate (abs : Z) : Z * Z * Z :=
  let d := abs / secondsPerDay in
  let n := d / daysPer400Years in
  let y := 400 * n in
  let d := d - daysPer400Years * n in
  let n := d / daysPer100Years in
  let n := n - Z.shiftr n 2 in
  let y := y + 100 * n in
  let d := d - daysPer100Years * n in
  let n := d / daysPer4Years in
  let y := y + 4 * n in
  let d := d - daysPer4Years * n in
  let n := d / 365 in
  let n := n - Z.shiftr n 2 in
  let y := y + n in
  let d := d - 365 * n in
  let year := y + absoluteZeroYear in
  let day := d in
  let afterLeapDay := isLeap year && (31 + 29 - 1 <? day) in
  if isLeap year && (day =? 31 + 29 - 1) then (year, 2, 29)
  else
    let day := if afterLeapDay then day - 1 else day in
    let month := Z.quot day 31 in
    let end_ := daysBefore_at (month + 1) in
    let '(month, begin) :=
      if end_ <=? day then (month + 1, end_)
      else (month, daysBefore_at month) in
    (year, month + 1, day - begin + 1).

(** [t.Weekday()]. *)
Definition Weekday (t : Time) : Z := absWeekday (snd (locabs t)).

(** *** Printing helpers *)

Definition digit (d : Z) : string := String (of_byte (48 + d)) EmptyString.

(** The decimal digits of [u >= 0], without padding. *)
Definition utoa (u : Z) : string :=
  NilZero.string_of_uint (N.to_uint (Z.to_N u)).

Fixpoint zeros (n : nat) : string :=
  match n with
  | O => EmptyString
  | S n' => String "0" (zeros n')
  end.

(** [appendInt(b, x, width)]: what it appends to [b].  Two-digit and
    four-digit fields take the fast paths through [smallsString]. *)
Definition appendInt (x width : Z) : string :=
  let sign := if x <? 0 then "-" else "" in
  let u := if x <? 0 then - x else x in
  if (width =? 2) && (u <? 100) then
    sign +:+ digit (u / 10) +:+ digit (u mod 10)
  else if (width =? 4) && (u <? 10000) then
    sign +:+ digit (u / 100 / 10) +:+ digit ((u / 100) mod 10)
         +:+ digit ((u mod 100) / 10) +:+ digit ((u mod 100) mod 10)
  else
    let ds := utoa u in
    sign +:+ zeros (Z.to_nat (width - len ds)) +:+ ds.

Definition nth_name (tab : list string) (i : Z) : string :=
  nth (Z.to_nat i) tab EmptyString.

(** *** [Parse(RFC1123Z, value)] *)

(** The chunks of the layout, as [nextStdChunk] cuts it:
    [stdWeekDay], [", "] [stdZeroDay], [" "] [stdMonth],
    [" "] [stdLongYear], [" "] [stdHour], [":"] [stdZeroMinute],
    [":"] [stdZeroSecond], [" "] [stdNumTZ], and the end.  Any failure of a
    chunk, by syntax or by range, makes [Parse] return an error, which the
    callers only test against [nil]; it is [None] here. *)

(** [stdLongYear]. *)
Definition parseLongYear (value : string) : option (Z * string) :=
  if (len value <? 4) || negb (isDigit value 0) then None
  else
    year ← atoi (take 4 value);
    Some (year, drop 4 value).

(** [stdZeroSecond] with its special case: a fractional second in the
    value that the layout does not have. *)
Definition parseZeroSecond (value : string) : option (Z * Z * string) :=
  '(sec, value) ← getnum value true;
  if (sec <? 0) || (60 <=? sec) then None
  else
    match byte_at value 0 with
    | Some c0 =>
        if (2 <=? len value) && commaOrPeriod c0 && isDigit value 1 then
          let n := (2 + digitsRun (drop 2 value))%nat in
          nsec ← parseNanoseconds value n;
          Some (sec, nsec, drop n value)
        else Some (sec, 0, value)
    | None => Some (sec, 0, value)
    end.

(** [stdNumTZ]: sign, two digits of hours, two of minutes. *)
Definition parseNumTZ (value : string) : option (Z * string) :=
  if len value <? 5 then None
  else
    let sign := take 1 value in
    let hour := take 2 (drop 1 value) in
    let min := take 2 (drop 3 value) in
    let seconds := "00" in
    let value := drop 5 value in
    '(hr, _) ← getnum hour true;
    '(mm, _) ← getnum min true;
    '(ss, _) ← getnum seconds true;
    if (24 <? hr) || (60 <? mm) || (60 <? ss) then None
    else
      let zoneOffset := (hr * 60 + mm) * 60 + ss in
      match byte_at sign 0 with
      | Some 43 => Some (zoneOffset, value)
      | Some 45 => Some (- zoneOffset, value)
      | _ => None
      end.

(** Everything [Parse] does after the weekday chunk. *)
Definition parseAfterWeekDay (value : string) : option Time :=
  value ← skip value ", ";
  '(day, value) ← getnum value true;
  value ← skip value " ";
  '(month, value) ← lookup shortMonthNames value;
  let month := month + 1 in
  value ← skip value " ";
  '(year, value) ← parseLongYear value;
  value ← skip value " ";
  '(hour, value) ← getnum value false;
  if (hour <? 0) || (24 <=? hour) then None else
  value ← skip value ":";
  '(min, value) ← getnum value true;
  if (min <? 0) || (60 <=? min) then None else
  value ← skip value ":";
  '(sec, nsec, value) ← parseZeroSecond value;
  value ← skip value " ";
  '(zoneOffset, value) ← parseNumTZ value;
  value ← skip value "";
  if negb (len value =? 0) then None else
  if (day <? 1) || (daysIn month year <? day) then None else
  if negb (zoneOffset =? -1) then
    let t := Date year month day hour min sec nsec in
    let t := addSec t (- zoneOffset) in
    Some (setLoc t zoneOffset)
  else Some (Date year month day hour min sec nsec).

(** [Parse(RFC1123Z, value)]: the weekday name is looked up and dropped. *)
Definition Parse (value : string) : option Time :=
  value ← skip value "";
  '(_, value) ← lookup shortDayNames value;
  parseAfterWeekDay value.

(** *** [t.Format(RFC1123Z)] *)

(** [stdNumTZ] of an offset in seconds. *)
Definition formatNumTZ (offset : Z) : string :=
  let zone := Z.quot offset 60 in
  let sign := if zone <? 0 then "-" else "+" in
  let zone := if zone <? 0 then - zone else zone in
  sign +:+ appendInt (Z.quot zone 60) 2 +:+ appendInt (Z.rem zone 60) 2.

(** What [Format] prints after the weekday name. *)
Definition formatAfterWeekDay (t : Time) : string :=
  let '(offset, abs) := locabs t in
  let '(year, month, day) := absDate abs in
  let '(hour, min, sec) := absClock abs in
  ", " +:+ appendInt day 2
  +:+ " " +:+ take 3 (nth_name longMonthNames (month - 1))
  +:+ " " +:+ appendInt year 4
  +:+ " " +:+ appendInt hour 2
  +:+ ":" +:+ appendInt min 2
  +:+ ":" +:+ appendInt sec 2
  +:+ " " +:+ formatNumTZ offset.

Definition weekDayName (t : Time) : string :=
  take 3 (nth_name longDayNames (Weekday t)).

Definition Format (t : Time) : string :=
  weekDayName t +:+ formatAfterWeekDay t.

End time.

(** ** Errors *)

(** A Go [error] is [nil] or a value with a message.  The errors the rules
    build come from [fmt.Errorf] without [%w]: nothing but their message can
    be observed. *)
Definition error : Type := option string.

Module errors.

(** The error [errors.Join] returns: the non-nil errors it was given. *)
Record joinError : Type := mkJoinError { errs : list string }.

(** [errors.Join(errs...)]: [nil] when every argument is [nil]. *)
Definition Join (es : list error) : option joinError :=
  let n := length (omap id es) in
  if (n =? 0)%nat then None else Some (mkJoinError (omap id es)).

Definition newline : string := String (ascii_of_nat 10) EmptyString.

(** The method [Error] of [joinError]: the messages, one per line. *)
Definition Error (e : joinError) : string :=
  match errs e with
  | [] => EmptyString
  | e0 :: rest => fold_left (fun b err => b +:+ newline +:+ err) rest e0
  end.

End errors.

(** ** The feed document *)

Module Name.
(** [xml.Name]. *)
Record t : Type := mk { Space : string; Local : string }.
End Name.

Module Item.
Record t : Type := mk {
  Title : string;
  Description : string;
  PubDate : string;
  GUID : string
}.
End Item.

Module Channel.
Record t : Type := mk {
  Title : string;
  Description : string;
  PubDate : string;
  Items : list Item.t
}.
End Channel.

(** ** The date validator *)

Definition validateRSSDate (str : string) : error :=
  match time.Parse str with
  | None => Some ("invalid date format in " +:+ str)
  | Some t =>
      (* Check that day of week was set correctly, as it is ignored by
         time.Parse. *)
      if negb (String.eqb str (time.Format t)) then
        Some ("day of week is not correct: expected " +:+ time.Format t
              +:+ ", got " +:+ str)
      else None
  end.

(** ** The rules and their orchestrator *)

Module RSS.

Record t : Type := mk { XMLName : Name.t; Channel : Channel.t }.

Definition validatePubDate (r : t) : error :=
  match validateRSSDate (Channel.PubDate (Channel r)) with
  | Some err => Some ("channel pub date: " +:+ err)
  | None => None
  end.

(** The loop of [validateItemDates] over the items still to visit. *)
Fixpoint validateItemDates_loop (items : list Item.t) : error :=
  match items with
  | [] => None
  | item :: items' =>
      match validateRSSDate (Item.PubDate item) with
      | Some err =>
          Some ("item '" +:+ Item.Title item +:+ "' pub date: " +:+ err)
      | None => validateItemDates_loop items'
      end
  end.

Definition validateItemDates (r : t) : error :=
  validateItemDates_loop (Channel.Items (Channel r)).

(** [guids[k]] on a Go [map[string]bool]: [false] for a missing key. *)
Definition guids_get (guids : gmap string bool) (k : string) : bool :=
  default false (guids !! k).

(** The loop of [validateItemGUIDs], with the map built so far. *)
Fixpoint validateItemGUIDs_loop (guids : gmap string bool)
    (items : list Item.t) : error :=
  match items with
  | [] => None
  | item :: items' =>
      if guids_get guids (Item.GUID item) then
        Some ("duplicate GUID found: " +:+ Item.GUID item)
      else validateItemGUIDs_loop (<[Item.GUID item := true]> guids) items'
  end.

Definition validateItemGUIDs (r : t) : error :=
  validateItemGUIDs_loop ∅ (Channel.Items (Channel r)).

Definition validatePubDateUpdated (r : t) : error :=
  match Channel.Items (Channel r) with
  | [] => None
  | latestItem :: _ =>
      match time.Parse (Channel.PubDate (Channel r)) with
      | None =>
          Some ("invalid date format in channel '"
                +:+ Channel.PubDate (Channel r) +:+ "'")
      | Some chanDate =>
          match time.Parse (Item.PubDate latestItem) with
          | None =>
              Some ("invalid date format in item '"
                    +:+ Item.PubDate latestItem +:+ "'")
          | Some itemDate =>
              if negb (time.Equal chanDate itemDate) then
                Some "publication dates of channel and item do not match"
              else None
          end
      end
  end.

(** The rules in the order [Validate] lists them. *)
Definition rules : list (t -> error) :=
  [validatePubDate; validateItemGUIDs; validateItemDates;
   validatePubDateUpdated].

(** One turn of the loop of [Validate]: run the rule, keep its error. *)
Definition Validate_step (r : t) (errs : list error) (rule : t -> error)
  : list error :=
  match rule r with
  | Some err => errs ++ [Some err]
  | None => errs
  end.

Definition Validate (r : t) : option errors.joinError :=
  errors.Join (fold_left (Validate_step r) rules []).

End RSS.

(** The order in which the specification lists the rules: channel date,
    item dates, item identifiers, channel against latest item. *)
Definition spec_rules : list (RSS.t -> error) :=
  [RSS.validatePubDate; RSS.validateItemDates; RSS.validateItemGUIDs;
   RSS.validatePubDateUpdated].

(** [Validate] as the specification words it: every rule of [spec_rules] is
    run, and the errors are joined in that order. *)
Definition Validate_spec (r : RSS.t) : option errors.joinError :=
  errors.Join (map (fun rule => rule r) spec_rules).

(** A feed with the given channel date and items. *)
Definition feed (pubDate : string) (items : list Item.t) : RSS.t :=
  RSS.mk (Name.mk "" "rss") (Channel.mk "t" "d" pubDate items).

Definition item (title pubDate guid : string) : Item.t :=
  Item.mk title "" pubDate guid.

(** ** The program around the rules *)

(** [strings.HasSuffix(s, suffix)]. *)
Definition HasSuffix (s suffix : string) : bool :=
  (String.length suffix <=? String.length s)%nat
  && String.eqb
       (gostring.drop (String.length s - String.length suffix) s) suffix.

(** What the program takes from outside: [os.ReadFile], which gives the bytes
    of a file or an error, and [xml.Unmarshal] into a zero [RSS], which gives
    the decoded document or an error.  Errors are their messages. *)
Record World : Type := mkWorld {
  ReadFile : string -> string + string;
  Unmarshal : string -> RSS.t + string
}.

(** A function that prints threads the lines written to standard output so
    far; [Printf out line] is the output after one call of [fmt.Printf]. *)
Definition Printf (out : list string) (line : string) : list string :=
  out ++ [line].

Definition verifyRSS (w : World) (filePath : string) (out : list string)
  : list string * error :=
  match ReadFile w filePath with
  | inr err => (out, Some ("error reading file: " +:+ err))
  | inl data =>
      match Unmarshal w data with
      | inr err =>
          (out, Some ("invalid XML in " +:+ filePath +:+ ": " +:+ err))
      | inl rss =>
          match RSS.Validate rss with
          | Some err =>
              (out, Some ("error in " +:+ filePath +:+ ": "
                          +:+ errors.Error err))
          | None =>
              (Printf out ("RSS file verification passed for " +:+ filePath
                           +:+ "!" +:+ errors.newline +:+ "f"),
               None)
          end
      end
  end.

(** [filepath.Walk]. *)
Module filepath.

(** The files under the root as [Walk] meets them: a name that [os.Lstat]
    fails on, a file that is not a directory, or a directory with the error
    of reading its names, if any, and its entries in the order of their
    names.  Each node carries the path that [Walk] hands to the function. *)
#[warnings="-register-all"]
Inductive tree : Type :=
| NoStat (path : string) (err : string)
| NotDir (path : string)
| Dir (path : string) (readErr : error) (entries : list tree).

(** The errors a [WalkFunc] returns: the two sentinels of the package, or
    any other error. *)
Inductive walkError : Type :=
| SkipDir
| SkipAll
| OtherError (msg : string).

(** [fs.FileInfo], of which the program reads [IsDir()]. *)
Record FileInfo : Type := mkFileInfo { IsDir : bool }.

(** A [WalkFunc] with the state it closes over: path, info ([nil] when
    [Lstat] failed), the error met at this path. *)
Definition WalkFunc (S : Type) : Type :=
  string -> option FileInfo -> error -> S -> S * option walkError.

Definition isSkipDir (e : walkError) : bool :=
  match e with SkipDir => true | _ => false end.

(** [walk(path, info, walkFn)], and for a name that [Lstat] fails on the
    call of [walkFn] that stands in its place. *)
Fixpoint walk {S : Type} (walkFn : WalkFunc S) (t : tree) (st : S)
  : S * option walkError :=
  match t with
  | NoStat path err => walkFn path None (Some err) st
  | NotDir path => walkFn path (Some (mkFileInfo false)) None st
  | Dir path readErr entries =>
      let '(st1, err1) := walkFn path (Some (mkFileInfo true)) readErr st in
      if bool_decide (readErr <> None) || bool_decide (err1 <> None)
      then (st1, err1)
      else
        (fix loop (entries : list tree) (st : S) : S * option walkError :=
           match entries with
           | [] => (st, None)
           | entry :: entries' =>
               let '(st', err) := walk walkFn entry st in
               match err with
               | None => loop entries' st'
               | Some e =>
                   match entry with
                   | NotDir _ => (st', Some e)
                   | NoStat _ _ | Dir _ _ _ =>
                       if isSkipDir e then loop entries' st'
                       else (st', Some e)
                   end
               end
           end) entries st1
  end.

(** [Walk(root, fn)]. *)
Definition Walk {S : Type} (root : tree) (fn : WalkFunc S) (st : S)
  : S * option walkError :=
  let '(st', err) := walk fn root st in
  match err with
  | Some SkipDir | Some SkipAll => (st', None)
  | _ => (st', err)
  end.

Definition Error (e : walkError) : string :=
  match e with
  | SkipDir => "skip this directory"
  | SkipAll => "skip everything and stop the walk"
  | OtherError msg => msg
  end.

End filepath.

(** The state of [main]: the variable [success] and standard output. *)
Record mainState : Type := mkMainState {
  success : bool;
  stdout : list string
}.

(** The function literal that [main] passes to [filepath.Walk]. *)
Definition mainWalkFn (w : World) : filepath.WalkFunc mainState :=
  fun path info err st =>
    match err with
    | Some e => (st, Some (filepath.OtherError e))
    | None =>
        let isDir := match info with
                     | Some i => filepath.IsDir i
                     | None => false
                     end in
        if negb isDir && (HasSuffix path ".xml" || HasSuffix path ".rss")
        then
          let out := Printf (stdout st)
                       ("Verifying " +:+ path +:+ "..." +:+ errors.newline) in
          match verifyRSS w path out with
          | (out', Some err) =>
              (mkMainState false
                 (Printf out' ("Validation failed: " +:+ err
                               +:+ errors.newline)),
               None)
          | (out', None) => (mkMainState (success st) out', None)
          end
        else (st, None)
    end.

(** [main], from the tree under ["./feed"]: what it prints and the exit
    status of the process. *)
Definition main (w : World) (feedDir : filepath.tree) : list string * Z :=
  let '(st, err) :=
    filepath.Walk feedDir (mainWalkFn w) (mkMainState true []) in
  match err with
  | Some e =>
      (Printf (stdout st)
         ("Error walking the path: " +:+ filepath.Error e +:+ errors.newline),
       1)
  | None => if negb (success st) then (stdout st, 1) else (stdout st, 0)
  end.

(** ** Vocabulary of the statements *)

(** The string [s] with its first three bytes, the weekday token, replaced
    by the name of weekday [w]. *)
Definition withWeekday (w : Z) (s : string) : string :=
  time.nth_name time.shortDayNames w +:+ gostring.drop 3 s.

(** The date validator accepts the publication date of an item. *)
Definition dateAccepted (it : Item.t) : Prop :=
  validateRSSDate (Item.PubDate it) = None.

(** The identifiers of a sequence of items, in order. *)
Definition guidsOf (items : list Item.t) : list string :=
  Item.GUID <$> items.

(** Two times are the same instant. *)
Definition sameInstant (t u : time.Time) : Prop :=
  time.unixSec t = time.unixSec u /\ time.nsec t = time.nsec u.

(** A path that [main] takes for a feed file when it is not a directory. *)
Definition isFeedFile (path : string) : bool :=
  HasSuffix path ".xml" || HasSuffix path ".rss".

(** The file at [path] can be read, decodes to a feed, and the feed passes
    the four rules. *)
Definition passes (w : World) (path : string) : Prop :=
  exists data rss,
    ReadFile w path = inl data /\ Unmarshal w data = inl rss
    /\ RSS.validatePubDate rss = None /\ RSS.validateItemGUIDs rss = None
    /\ RSS.validateItemDates rss = None
    /\ RSS.validatePubDateUpdated rss = None.

(** The error of [verifyRSS] on [path], [nil] when it passes. *)
Definition outcome (w : World) (path : string) : error :=
  snd (verifyRSS w path []).

(** The two lines that [main] prints for a feed file. *)
Definition report (w : World) (path : string) : list string :=
  [ "Verifying " +:+ path +:+ "..." +:+ errors.newline;
    match outcome w path with
    | None =>
        "RSS file verification passed for " +:+ path +:+ "!"
        +:+ errors.newline +:+ "f"
    | Some err => "Validation failed: " +:+ err +:+ errors.newline
    end ].

(** The feed files of the entries that a walk reaches, in order, and the
    error that stops it, if one does. *)
Definition visitEntries (visit : filepath.tree -> list string * error)
  : list filepath.tree -> list string * error :=
  fix go (entries : list filepath.tree) : list string * error :=
    match entries with
    | [] => ([], None)
    | entry :: entries' =>
        match visit entry with
        | (paths, Some err) => (paths, Some err)
        | (paths, None) =>
            let '(paths', err) := go entries' in (paths ++ paths', err)
        end
    end.

(** The walk of a tree in terms of the tree alone: the regular files with a
    feed suffix, in the order of the walk, up to the first name that cannot
    be examined or directory that cannot be read, and the error met there. *)
Fixpoint visit (t : filepath.tree) : list string * error :=
  match t with
  | filepath.NoStat _ err => ([], Some err)
  | filepath.NotDir path => (if isFeedFile path then [path] else [], None)
  | filepath.Dir _ (Some err) _ => ([], Some err)
  | filepath.Dir _ None entries => visitEntries visit entries
  end.

(** The state of [main] after its walk function has verified the feed files
    [paths]: [success] stays true when all of them pass, and the output has
    grown by their reports. *)
Definition afterFiles (w : World) (paths : list string) (st : mainState)
  : mainState :=
  mkMainState
    (success st && forallb (fun p => bool_decide (outcome w p = None)) paths)
    (stdout st ++ concat (report w <$> paths)).

(** The regular files with a feed suffix anywhere in a tree, in the order of
    the walk. *)
Fixpoint allFeedFiles (t : filepath.tree) : list string :=
  match t with
  | filepath.NoStat _ _ => []
  | filepath.NotDir path => if isFeedFile path then [path] else []
  | filepath.Dir _ _ entries => concat (map allFeedFiles entries)
  end.

(** Every name in the tree can be examined and every directory read. *)
Fixpoint healthy (t : filepath.tree) : bool :=
  match t with
  | filepath.NoStat _ _ => false
  | filepath.NotDir _ => true
  | filepath.Dir _ readErr entries =>
      match readErr with
      | Some _ => false
      | None => forallb healthy entries
      end
  end.

(** A world with two feed files, one that passes and one with a repeated
    identifier, and the tree that holds them. *)
Definition exampleWorld : World :=
  mkWorld
    (fun path =>
       if String.eqb path "feed/good.xml" then inl "good"
       else if String.eqb path "feed/sub/dup.rss" then inl "dup"
       else inr ("open " +:+ path +:+ ": no such file or directory"))
    (fun data =>
       if String.eqb data "good" then
         inl (feed "Tue, 01 Jan 2019 00:00:00 +0000"
                [item "a" "Mon, 31 Dec 2018 16:00:00 -0800" "g1"])
       else if String.eqb data "dup" then
         inl (feed "Tue, 01 Jan 2019 00:00:00 +0000"
                [item "a" "Tue, 01 Jan 2019 00:00:00 +0000" "abc123";
                 item "b" "Tue, 01 Jan 2019 00:00:00 +0000" "abc123"])
       else inr "EOF").

Definition exampleTree : filepath.tree :=
  filepath.Dir "./feed" None
    [filepath.NotDir "feed/good.xml"; filepath.NotDir "feed/notes.txt";
     filepath.Dir "feed/sub" None [filepath.NotDir "feed/sub/dup.rss"]].

(** *** Dates in RFC 1123 form *)

(** The fields of a date with a numeric zone: the zone is a sign, hours and
    minutes. *)
Record dateFields : Type := mkDateFields {
  f_year : Z;
  f_month : Z;
  f_day : Z;
  f_hour : Z;
  f_min : Z;
  f_sec : Z;
  f_west : bool;
  f_zhour : Z;
  f_zmin : Z
}.

(** A four-digit year, a day that the month has in that year, a time of the
    day, and a zone of at most 24 hours and 59 minutes that is written with
    a minus sign only when it is not zero. *)
Definition validFields (f : dateFields) : Prop :=
  0 <= f_year f <= 9999
  /\ 1 <= f_month f <= 12
  /\ 1 <= f_day f <= time.daysIn (f_month f) (f_year f)
  /\ 0 <= f_hour f <= 23
  /\ 0 <= f_min f <= 59
  /\ 0 <= f_sec f <= 59
  /\ 0 <= f_zhour f <= 24
  /\ 0 <= f_zmin f <= 59
  /\ (f_west f = true -> 0 < f_zhour f * 60 + f_zmin f).

(** The day of the year, from 1. *)
Definition dayOfYear (year month day : Z) : Z :=
  time.daysBefore_at (month - 1)
  + (if time.isLeap year && (3 <=? month) then 1 else 0)
  + day.

(** The number of the day in the proleptic Gregorian calendar, 1 for the
    first of January of year 1, a Monday. *)
Definition dayNumber (year month day : Z) : Z :=
  365 * (year - 1) + (year - 1) / 4 - (year - 1) / 100 + (year - 1) / 400
  + dayOfYear year month day.

(** The weekday of a date, 0 for Sunday. *)
Definition weekdayOf (f : dateFields) : Z :=
  dayNumber (f_year f) (f_month f) (f_day f) mod 7.

(** The zone as seconds east of UTC. *)
Definition offsetOf (f : dateFields) : Z :=
  let secs := (f_zhour f * 60 + f_zmin f) * 60 in
  if f_west f then - secs else secs.

(** The instant in seconds since 1970-01-01 00:00:00 UTC. *)
Definition unixOf (f : dateFields) : Z :=
  (dayNumber (f_year f) (f_month f) (f_day f) - 719163) * 86400
  + f_hour f * 3600 + f_min f * 60 + f_sec f - offsetOf f.

(** A number below 100 in two digits, a number below 10000 in four. *)
Definition twoDigits (x : Z) : string :=
  time.digit (x / 10) +:+ time.digit (x mod 10).

Definition fourDigits (x : Z) : string :=
  twoDigits (x / 100) +:+ twoDigits (x mod 100).

(** The fields written in the format
    [<Weekday>, <DD> <Mon> <YYYY> <HH>:<MM>:<SS> <+-ZZZZ>], with the weekday
    [w]. *)
Definition render (w : Z) (f : dateFields) : string :=
  time.nth_name time.shortDayNames w
  +:+ ", " +:+ twoDigits (f_day f)
  +:+ " " +:+ time.nth_name time.shortMonthNames (f_month f - 1)
  +:+ " " +:+ fourDigits (f_year f)
  +:+ " " +:+ twoDigits (f_hour f)
  +:+ ":" +:+ twoDigits (f_min f)
  +:+ ":" +:+ twoDigits (f_sec f)
  +:+ " " +:+ (if f_west f then "-" else "+")
  +:+ twoDigits (f_zhour f) +:+ twoDigits (f_zmin f).

(** Year and day in the year, from 0, of a count of days since the absolute
    epoch: the first half of [absDate]. *)
Definition absYearDay (d : Z) : Z * Z :=
  let n := d / time.daysPer400Years in
  let y := 400 * n in
  let d := d - time.daysPer400Years * n in
  let n := d / time.daysPer100Years in
  let n := n - Z.shiftr n 2 in
  let y := y + 100 * n in
  let d := d - time.daysPer100Years * n in
  let n := d / time.daysPer4Years in
  let y := y + 4 * n in
  let d := d - time.daysPer4Years * n in
  let n := d / 365 in
  let n := n - Z.shiftr n 2 in
  let y := y + n in
  let d := d - 365 * n in
  (y + time.absoluteZeroYear, d).

(** Month and day of the month of a day in the year: the second half of
    [absDate]. *)
Definition monthDay (leap : bool) (yday : Z) : Z * Z :=
  if leap && (yday =? 31 + 29 - 1) then (2, 29)
  else
    let day := if leap && (31 + 29 - 1 <? yday) then yday - 1 else yday in
    let month := Z.quot day 31 in
    let end_ := time.daysBefore_at (month + 1) in
    let '(month, begin) :=
      if end_ <=? day then (month + 1, end_)
      else (month, time.daysBefore_at month) in
    (month + 1, day - begin + 1).

(** The string [s] writes the fields [f] in the format, with the weekday
    of the date. *)
Definition writtenDate (s : string) (f : dateFields) : Prop :=
  validFields f /\ s = render (weekdayOf f) f.

(** The time that the fields denote, in their zone. *)
Definition timeOf (f : dateFields) : time.Time :=
  time.mkTime (unixOf f) 0 (offsetOf f).

(** The seconds since the absolute epoch of a date and a time of the day. *)
Definition absOf (y m d hh mm ss : Z) : Z :=
  (time.daysSinceEpoch y + (dayOfYear y m d - 1)) * time.secondsPerDay
  + (hh * time.secondsPerHour + mm * time.secondsPerMinute + ss).

(** A date and a time of the day that exist, in a year of four digits. *)
Definition validDateTime (f : dateFields) : Prop :=
  0 <= f_year f <= 9999
  /\ 1 <= f_month f <= 12
  /\ 1 <= f_day f <= time.daysIn (f_month f) (f_year f)
  /\ 0 <= f_hour f <= 23
  /\ 0 <= f_min f <= 59
  /\ 0 <= f_sec f <= 59.

(** Induction on a tree, with the property for every entry of a
    directory. *)
Section tree_induction.
Variable P : filepath.tree -> Prop.
Hypothesis HNoStat : forall path err, P (filepath.NoStat path err).
Hypothesis HNotDir : forall path, P (filepath.NotDir path).
Hypothesis HDir :
  forall path readErr entries,
    Forall P entries -> P (filepath.Dir path readErr entries).

Fixpoint tree_ind_entries (t : filepath.tree) : P t :=
  match t with
  | filepath.NoStat path err => HNoStat path err
  | filepath.NotDir path => HNotDir path
  | filepath.Dir path readErr entries =>
      HDir path readErr entries
        ((fix all (es : list filepath.tree) : Forall P es :=
            match es with
            | [] => @List.Forall_nil _ P
            | e :: es' =>
                @List.Forall_cons _ P e es' (tree_ind_entries e) (all es')
            end) entries)
  end.
End tree_induction.

(** * Properties *)

(** ** Facts about the [time] model *)

Module time_facts.
Import gostring time.

#[local] Arguments String.append !_ _ / : simpl nomatch.

Lemma absWeekday_range (abs : Z) : 0 <= absWeekday abs < 7.
Proof.
  unfold absWeekday, secondsPerWeek, secondsPerDay.
  pose proof (Z.mod_pos_bound (abs + 1 * 86400) 604800 ltac:(lia)) as Hm.
  split.
  - apply Z.quot_pos; lia.
  - apply Z.quot_lt_upper_bound; lia.
Qed.

Lemma Weekday_range (t : Time) : 0 <= Weekday t < 7.
Proof. apply absWeekday_range. Qed.

(** A number in [0, 7) is one of the seven weekdays. *)
Lemma weekday_cases (w : Z) :
  0 <= w < 7 ->
  w = 0 \/ w = 1 \/ w = 2 \/ w = 3 \/ w = 4 \/ w = 5 \/ w = 6.
Proof. lia. Qed.

Ltac each_weekday H :=
  apply weekday_cases in H;
  destruct H as [-> | [-> | [-> | [-> | [-> | [-> | ->]]]]]].

(** The first three letters of the long name are the short name. *)
Lemma short_of_long (w : Z) :
  0 <= w < 7 ->
  take 3 (nth_name longDayNames w) = nth_name shortDayNames w.
Proof. intros H. each_weekday H; reflexivity. Qed.

Lemma weekDayName_short (t : Time) :
  weekDayName t = nth_name shortDayNames (Weekday t).
Proof. apply short_of_long, Weekday_range. Qed.

(** Slices of a concatenation. *)
Lemma take_app_length (a b : string) : take (String.length a) (a +:+ b) = a.
Proof. induction a as [|c a IH]; [by destruct b|]. cbn. by rewrite IH. Qed.

Lemma drop_app_length (a b : string) : drop (String.length a) (a +:+ b) = b.
Proof. induction a as [|c a IH]; [done|]. apply IH. Qed.

Lemma len_app (a b : string) : len (a +:+ b) = len a + len b.
Proof.
  unfold len. induction a as [|c a IH]; [done|].
  cbn [String.append String.length]. lia.
Qed.

Lemma len_nonneg (a : string) : 0 <= len a.
Proof. unfold len. lia. Qed.

(** One turn of the loop of [lookup] on a value that starts with [name]. *)
Lemma lookup_from_hit i v tab name rest :
  String.length v = String.length name ->
  match_ name v = true ->
  lookup_from i (v :: tab) (name +:+ rest) = Some (i, rest).
Proof.
  intros Hl Hm. cbn [lookup_from].
  rewrite Hl, take_app_length, drop_app_length, Hm, len_app.
  replace (len v) with (len name) by (unfold len; lia).
  pose proof (len_nonneg rest).
  by destruct (Z.leb_spec (len name) (len name + len rest)); [|lia].
Qed.

Lemma lookup_from_miss i v tab name rest :
  String.length v = String.length name ->
  match_ name v = false ->
  lookup_from i (v :: tab) (name +:+ rest)
  = lookup_from (i + 1) tab (name +:+ rest).
Proof.
  intros Hl Hm. cbn [lookup_from].
  by rewrite Hl, take_app_length, Hm, andb_false_r.
Qed.

(** [lookup] finds a short day name at the front of a value, whatever
    follows it. *)
Lemma lookup_shortDayNames (w : Z) (rest : string) :
  0 <= w < 7 ->
  lookup shortDayNames (nth_name shortDayNames w +:+ rest) = Some (w, rest).
Proof.
  intros H. unfold lookup, shortDayNames at 1.
  each_weekday H;
    rewrite ?lookup_from_miss by reflexivity;
    by rewrite lookup_from_hit by reflexivity.
Qed.

(** [Parse] reads the same time behind any of the seven weekday names. *)
Lemma Parse_weekday (w : Z) (rest : string) :
  0 <= w < 7 ->
  Parse (nth_name shortDayNames w +:+ rest) = parseAfterWeekDay rest.
Proof.
  intros H. unfold Parse.
  change (skip ?v "") with (Some v). cbn [mbind option_bind].
  by rewrite lookup_shortDayNames.
Qed.

(** Different weekdays have different names. *)
Lemma shortDayNames_inj (w w' : Z) (rest rest' : string) :
  0 <= w < 7 -> 0 <= w' < 7 ->
  nth_name shortDayNames w +:+ rest = nth_name shortDayNames w' +:+ rest' ->
  w = w'.
Proof.
  intros H H'. each_weekday H; each_weekday H'; try reflexivity;
    intros Heq; exfalso; vm_compute in Heq; congruence.
Qed.

Lemma nth_name_short_length (w : Z) :
  0 <= w < 7 -> String.length (nth_name shortDayNames w) = 3%nat.
Proof. intros H. each_weekday H; reflexivity. Qed.

(** [Format] prints the short name of the weekday, then the rest. *)
Lemma Format_weekday (t : Time) :
  Format t = nth_name shortDayNames (Weekday t) +:+ formatAfterWeekDay t.
Proof. unfold Format. by rewrite weekDayName_short. Qed.

Lemma drop_Format (t : Time) : drop 3 (Format t) = formatAfterWeekDay t.
Proof.
  rewrite Format_weekday.
  rewrite <- (nth_name_short_length (Weekday t)) by apply Weekday_range.
  apply drop_app_length.
Qed.

(** The model on the reference time of the layout and on some values next
    to the edges of the format. *)
Example Parse_reference_time :
  Parse RFC1123Z = Some (mkTime 1136239445 0 (-25200)).
Proof. vm_compute. reflexivity. Qed.

Example Format_reference_time :
  Format (mkTime 1136239445 0 (-25200)) = RFC1123Z.
Proof. vm_compute. reflexivity. Qed.

Example Parse_unix_epoch :
  Parse "Thu, 01 Jan 1970 00:00:00 +0000" = Some (mkTime 0 0 0).
Proof. vm_compute. reflexivity. Qed.

Example Parse_any_case_any_weekday :
  Parse "SUN, 01 jan 1970 00:00:00 +0000" = Some (mkTime 0 0 0).
Proof. vm_compute. reflexivity. Qed.

Example Parse_one_digit_hour :
  Parse "Thu, 01 Jan 1970 0:00:00 +0000" = Some (mkTime 0 0 0).
Proof. vm_compute. reflexivity. Qed.

Example Parse_fractional_second :
  Parse "Thu, 01 Jan 1970 00:00:00.5 +0000" = Some (mkTime 0 500000000 0).
Proof. vm_compute. reflexivity. Qed.

Example Parse_one_digit_day : Parse "Thu, 1 Jan 1970 00:00:00 +0000" = None.
Proof. vm_compute. reflexivity. Qed.

Example Parse_day_out_of_range :
  Parse "Wed, 29 Feb 1900 00:00:00 +0000" = None.
Proof. vm_compute. reflexivity. Qed.

Example Parse_leap_day :
  option_map Format (Parse "Tue, 29 Feb 2000 23:59:59 +0530")
  = Some "Tue, 29 Feb 2000 23:59:59 +0530".
Proof. vm_compute. reflexivity. Qed.

Example Format_negative_zero_zone :
  option_map Format (Parse "Thu, 01 Jan 1970 00:00:00 -0000")
  = Some "Thu, 01 Jan 1970 00:00:00 +0000".
Proof. vm_compute. reflexivity. Qed.

(** [Equal] decides equality of instants. *)
Lemma Equal_spec (t u : Time) : Equal t u = true <-> sameInstant t u.
Proof.
  unfold Equal, sameInstant. rewrite andb_true_iff, !Z.eqb_eq. done.
Qed.

End time_facts.

(** ** The date validator *)

Section date_validator.
Import gostring time time_facts.

(** What [validateRSSDate] answers, by cases on [Parse] and on the
    comparison with [Format]. *)
Lemma validateRSSDate_parse_error (s : string) :
  Parse s = None ->
  validateRSSDate s = Some ("invalid date format in " +:+ s).
Proof. intros H. unfold validateRSSDate. by rewrite H. Qed.

Lemma validateRSSDate_mismatch (s : string) (t : Time) :
  Parse s = Some t -> Format t <> s ->
  validateRSSDate s
  = Some ("day of week is not correct: expected " +:+ Format t
          +:+ ", got " +:+ s).
Proof.
  intros H Hne. unfold validateRSSDate. rewrite H.
  destruct (String.eqb_spec s (Format t)) as [->|_]; [done|reflexivity].
Qed.

Lemma validateRSSDate_accept (s : string) (t : Time) :
  Parse s = Some t -> Format t = s -> validateRSSDate s = None.
Proof.
  intros H Heq. unfold validateRSSDate. rewrite H, Heq.
  by rewrite String.eqb_refl.
Qed.

Lemma validateRSSDate_None_inv (s : string) :
  validateRSSDate s = None -> exists t, Parse s = Some t /\ Format t = s.
Proof.
  unfold validateRSSDate. destruct (Parse s) as [t|]; [|done].
  destruct (String.eqb_spec s (Format t)) as [Heq|]; [|done].
  intros _. by exists t.
Qed.

(** C2. Round-trip law: the date validator returns no error for a string
    exactly when the string parses under RFC1123Z and formatting the
    parsed time under RFC1123Z gives the string back, byte for byte. *)
Theorem validateRSSDate_round_trip (s : string) :
  validateRSSDate s = None <-> exists t, Parse s = Some t /\ Format t = s.
Proof.
  split.
  - apply validateRSSDate_None_inv.
  - intros (t & Hp & Hf). by apply validateRSSDate_accept with t.
Qed.

(** An accepted string starts with the name of its weekday. *)
Lemma accepted_withWeekday (s : string) (t : Time) :
  Parse s = Some t -> Format t = s -> s = withWeekday (Weekday t) s.
Proof.
  intros _ Hf. unfold withWeekday. rewrite <- Hf at 1 2.
  rewrite drop_Format. apply Format_weekday.
Qed.

(** [Parse] does not see which weekday name an accepted string carries. *)
Lemma Parse_withWeekday (s : string) (t : Time) (w : Z) :
  Parse s = Some t -> Format t = s -> 0 <= w < 7 ->
  Parse (withWeekday w s) = Some t.
Proof.
  intros Hp Hf Hw.
  pose proof (Parse_weekday (Weekday t) (drop 3 s) (Weekday_range t))
    as Hp0.
  fold (withWeekday (Weekday t) s) in Hp0.
  rewrite <- (accepted_withWeekday s t Hp Hf) in Hp0.
  unfold withWeekday. rewrite Parse_weekday by done. congruence.
Qed.

(** Another weekday name gives another string. *)
Lemma withWeekday_neq (s : string) (t : Time) (w : Z) :
  Parse s = Some t -> Format t = s -> 0 <= w < 7 -> w <> Weekday t ->
  s <> withWeekday w s.
Proof.
  intros Hp Hf Hw Hne Heq.
  rewrite (accepted_withWeekday s t Hp Hf) in Heq at 1.
  apply Hne. symmetry.
  eapply shortDayNames_inj; [apply Weekday_range|done|exact Heq].
Qed.

(** C3. Take a date string that the validator accepts; it starts with the
    name of the weekday of its date.  Put the name of any other weekday in
    its place and leave the rest as it is: the validator rejects the new
    string, and the error is the day-of-week one, which quotes the string
    with the right weekday, not the parse error. *)
Theorem validateRSSDate_wrong_weekday (s : string) (t : Time) (w : Z) :
  validateRSSDate s = None ->
  Parse s = Some t ->
  0 <= w < 7 ->
  w <> Weekday t ->
  s = withWeekday (Weekday t) s
  /\ validateRSSDate (withWeekday w s)
     = Some ("day of week is not correct: expected " +:+ s
             +:+ ", got " +:+ withWeekday w s).
Proof.
  intros Hok Hp Hw Hne.
  apply validateRSSDate_None_inv in Hok as (t' & Hp' & Hf).
  assert (t' = t) as -> by congruence.
  split; [by apply accepted_withWeekday|].
  rewrite (validateRSSDate_mismatch _ t).
  - by rewrite Hf.
  - by apply Parse_withWeekday.
  - rewrite Hf. by apply withWeekday_neq with t.
Qed.

Lemma validateRSSDate_wrong_weekday_witness :
  validateRSSDate "Tue, 02 Jan 2006 15:04:05 -0700"
  = Some ("day of week is not correct: expected "
          +:+ "Mon, 02 Jan 2006 15:04:05 -0700"
          +:+ ", got " +:+ "Tue, 02 Jan 2006 15:04:05 -0700").
Proof.
  refine (proj2 (validateRSSDate_wrong_weekday
                   "Mon, 02 Jan 2006 15:04:05 -0700"
                   (mkTime 1136239445 0 (-25200)) 2 _ _ _ _)).
  - vm_compute. reflexivity.
  - vm_compute. reflexivity.
  - lia.
  - vm_compute. discriminate.
Defined.

End date_validator.

(** ** The rules *)

Section rules.
Import time time_facts RSS.

Implicit Types (r : RSS.t) (items pre post : list Item.t) (it : Item.t).

(** *** Item dates *)

Lemma validateItemDates_loop_None items :
  Forall dateAccepted items -> validateItemDates_loop items = None.
Proof.
  induction 1 as [|it items Hit _ IH]; [done|].
  cbn [validateItemDates_loop]. by rewrite Hit.
Qed.

Lemma validateItemDates_loop_first pre it post (e : string) :
  Forall dateAccepted pre ->
  validateRSSDate (Item.PubDate it) = Some e ->
  validateItemDates_loop (pre ++ it :: post)
  = Some ("item '" +:+ Item.Title it +:+ "' pub date: " +:+ e).
Proof.
  intros Hpre He. induction Hpre as [|x pre Hx _ IH].
  - cbn [app validateItemDates_loop]. by rewrite He.
  - cbn [app validateItemDates_loop]. by rewrite Hx.
Qed.

(** C4. The item date rule visits the items in order.  When the validator
    accepts every item's date the rule returns no error.  When it rejects
    the date of some item and accepts those of all items before it, the
    rule returns one error, made of that item's title and the validator's
    error, whatever the items after it are. *)
Theorem validateItemDates_first_invalid r :
  (Forall dateAccepted (Channel.Items (Channel r)) ->
   validateItemDates r = None)
  /\ (forall pre it post e,
        Channel.Items (Channel r) = pre ++ it :: post ->
        Forall dateAccepted pre ->
        validateRSSDate (Item.PubDate it) = Some e ->
        validateItemDates r
        = Some ("item '" +:+ Item.Title it +:+ "' pub date: " +:+ e)).
Proof.
  unfold validateItemDates. split.
  - apply validateItemDates_loop_None.
  - intros pre it post e ->. apply validateItemDates_loop_first.
Qed.

(** *** Item identifiers *)

Lemma guids_get_insert (guids : gmap string bool) (k k' : string) :
  guids_get (<[k := true]> guids) k'
  = if decide (k = k') then true else guids_get guids k'.
Proof.
  unfold guids_get. rewrite lookup_insert. by case_decide.
Qed.

Lemma validateItemGUIDs_loop_None (guids : gmap string bool) items :
  (forall g, g ∈ guidsOf items -> guids_get guids g = false) ->
  NoDup (guidsOf items) ->
  validateItemGUIDs_loop guids items = None.
Proof.
  revert guids. induction items as [|it items IH]; intros guids Hnew Hnd.
  { done. }
  cbn [validateItemGUIDs_loop]. unfold guidsOf in *.
  rewrite fmap_cons in *. apply NoDup_cons in Hnd as [Hnotin Hnd].
  rewrite Hnew by left. apply IH; [|done].
  intros g Hg. rewrite guids_get_insert. case_decide as Heq.
  - subst g. done.
  - apply Hnew. by right.
Qed.

Lemma validateItemGUIDs_loop_dup (guids : gmap string bool) pre it post :
  (forall g, g ∈ guidsOf pre -> guids_get guids g = false) ->
  NoDup (guidsOf pre) ->
  guids_get guids (Item.GUID it) = true \/ Item.GUID it ∈ guidsOf pre ->
  validateItemGUIDs_loop guids (pre ++ it :: post)
  = Some ("duplicate GUID found: " +:+ Item.GUID it).
Proof.
  revert guids. induction pre as [|x pre IH]; intros guids Hnew Hnd Hdup.
  - cbn [app validateItemGUIDs_loop].
    destruct Hdup as [-> | Hin]; [done|]. by apply elem_of_nil in Hin.
  - cbn [app validateItemGUIDs_loop]. unfold guidsOf in *.
    rewrite fmap_cons in *. apply NoDup_cons in Hnd as [Hnotin Hnd].
    rewrite Hnew by left. apply IH; [|done|].
    + intros g Hg. rewrite guids_get_insert. case_decide as Heq.
      * subst g. done.
      * apply Hnew. by right.
    + rewrite guids_get_insert. case_decide as Heq; [by left|].
      destruct Hdup as [Hseen | Hin]; [by left|].
      apply elem_of_cons in Hin as [Heq' | Hin]; [congruence|by right].
Qed.

Lemma guids_get_empty (g : string) : guids_get ∅ g = false.
Proof. unfold guids_get. by rewrite lookup_empty. Qed.

(** A list of items with a repeated identifier splits at the first item
    whose identifier was seen before. *)
Lemma first_repeated_guid items :
  ~ NoDup (guidsOf items) ->
  exists pre it post,
    items = pre ++ it :: post
    /\ NoDup (guidsOf pre) /\ Item.GUID it ∈ guidsOf pre.
Proof.
  induction items as [|x items IH] using rev_ind; intros Hdup.
  { destruct Hdup. constructor. }
  destruct (decide (NoDup (guidsOf items))) as [Hnd | Hnd].
  - exists items, x, []. split; [done|]. split; [done|].
    destruct (decide (Item.GUID x ∈ guidsOf items)) as [|Hnotin]; [done|].
    destruct Hdup. unfold guidsOf in *. rewrite fmap_app.
    apply NoDup_app. split; [done|]. split.
    + intros g Hg Hg'. apply list_elem_of_singleton in Hg'. by subst g.
    + apply NoDup_singleton.
  - destruct (IH Hnd) as (pre & it & post & -> & Hpre & Hin).
    exists pre, it, (post ++ [x]). by rewrite <- app_assoc.
Qed.

Lemma validateItemGUIDs_distinct r :
  NoDup (guidsOf (Channel.Items (Channel r))) -> validateItemGUIDs r = None.
Proof.
  intros Hnd. apply validateItemGUIDs_loop_None; [|done].
  intros g _. apply guids_get_empty.
Qed.

Lemma validateItemGUIDs_repeated r pre it post :
  Channel.Items (Channel r) = pre ++ it :: post ->
  NoDup (guidsOf pre) ->
  Item.GUID it ∈ guidsOf pre ->
  validateItemGUIDs r = Some ("duplicate GUID found: " +:+ Item.GUID it).
Proof.
  unfold validateItemGUIDs. intros -> Hnd Hin.
  apply validateItemGUIDs_loop_dup; [|done|by right].
  intros g _. apply guids_get_empty.
Qed.

(** C5. The identifier rule scans the items in order.  When the
    identifiers are pairwise distinct it returns no error.  At the first
    item whose identifier is that of an item before it, it returns one
    error, which names this identifier, whatever the items after it are
    and however many of them repeat an identifier. *)
Theorem validateItemGUIDs_first_duplicate r :
  (NoDup (guidsOf (Channel.Items (Channel r))) ->
   validateItemGUIDs r = None)
  /\ (forall pre it post,
        Channel.Items (Channel r) = pre ++ it :: post ->
        NoDup (guidsOf pre) ->
        Item.GUID it ∈ guidsOf pre ->
        validateItemGUIDs r
        = Some ("duplicate GUID found: " +:+ Item.GUID it)).
Proof.
  split; [apply validateItemGUIDs_distinct|].
  intros pre it post. apply validateItemGUIDs_repeated.
Qed.

Lemma validateItemGUIDs_first_duplicate_witness :
  validateItemGUIDs (feed "" [item "a" "" "abc123"; item "b" "" "x"]) = None
  /\ validateItemGUIDs
       (feed "" [item "a" "" "abc123"; item "b" "" "x";
                 item "c" "" "abc123"; item "d" "" "x";
                 item "e" "" "abc123"])
     = Some "duplicate GUID found: abc123".
Proof.
  assert (Hnd : NoDup (guidsOf [item "a" "" "abc123"; item "b" "" "x"])).
  { unfold guidsOf. cbn [fmap list_fmap item Item.GUID].
    apply NoDup_cons. split; [|apply NoDup_singleton].
    intros Hin. apply list_elem_of_singleton in Hin. discriminate. }
  split.
  - exact (proj1 (validateItemGUIDs_first_duplicate
                    (feed "" [item "a" "" "abc123"; item "b" "" "x"])) Hnd).
  - refine (proj2 (validateItemGUIDs_first_duplicate
                     (feed "" [item "a" "" "abc123"; item "b" "" "x";
                               item "c" "" "abc123"; item "d" "" "x";
                               item "e" "" "abc123"]))
              [item "a" "" "abc123"; item "b" "" "x"]
              (item "c" "" "abc123")
              [item "d" "" "x"; item "e" "" "abc123"] eq_refl Hnd _).
    unfold guidsOf. cbn [fmap list_fmap item Item.GUID]. left.
Defined.

Lemma validateItemDates_first_invalid_witness :
  validateItemDates
    (feed "" [item "a" "Mon, 02 Jan 2006 15:04:05 -0700" ""]) = None
  /\ validateItemDates
       (feed "" [item "a" "Mon, 02 Jan 2006 15:04:05 -0700" "";
                 item "b" "yesterday" ""; item "c" "tomorrow" ""])
     = Some ("item 'b' pub date: invalid date format in yesterday").
Proof.
  assert (Hok : Forall dateAccepted
                  [item "a" "Mon, 02 Jan 2006 15:04:05 -0700" ""]).
  { apply Forall_cons. split; [vm_compute; reflexivity|apply Forall_nil_2]. }
  split.
  - exact (proj1 (validateItemDates_first_invalid
                    (feed "" [item "a" "Mon, 02 Jan 2006 15:04:05 -0700"
                                ""])) Hok).
  - refine (proj2 (validateItemDates_first_invalid
                     (feed "" [item "a" "Mon, 02 Jan 2006 15:04:05 -0700" "";
                               item "b" "yesterday" "";
                               item "c" "tomorrow" ""]))
              [item "a" "Mon, 02 Jan 2006 15:04:05 -0700" ""]
              (item "b" "yesterday" "") [item "c" "tomorrow" ""]
              "invalid date format in yesterday" eq_refl Hok _).
    vm_compute. reflexivity.
Defined.

(** C9. The empty identifier is an identifier like any other: a feed with
    two items whose identifier is the empty string gets a duplicate
    identifier error from the uniqueness rule, and the error names the
    empty string when no identifier repeats before the second of them. *)
Theorem validateItemGUIDs_empty_guid r (i j : nat) :
  (i < j)%nat ->
  guidsOf (Channel.Items (Channel r)) !! i = Some "" ->
  guidsOf (Channel.Items (Channel r)) !! j = Some "" ->
  (exists g, validateItemGUIDs r = Some ("duplicate GUID found: " +:+ g))
  /\ (NoDup (take j (guidsOf (Channel.Items (Channel r)))) ->
      validateItemGUIDs r = Some ("duplicate GUID found: " +:+ "")).
Proof.
  intros Hij Hi Hj. split.
  - destruct (first_repeated_guid (Channel.Items (Channel r)))
      as (pre & it & post & Hitems & Hnd & Hin).
    { intros Hnd. pose proof (proj1 (NoDup_alt _) Hnd i j "" Hi Hj). lia. }
    exists (Item.GUID it).
    by apply validateItemGUIDs_repeated with pre post.
  - intros Hnd. unfold guidsOf in *.
    rewrite list_lookup_fmap in Hj.
    destruct (Channel.Items (Channel r) !! j) as [it|] eqn:Hitj; [|done].
    cbn in Hj. injection Hj as Hg.
    pose proof (validateItemGUIDs_repeated r
                  (take j (Channel.Items (Channel r))) it
                  (drop (S j) (Channel.Items (Channel r)))) as Hdup.
    rewrite Hg in Hdup. apply Hdup.
    + symmetry. by apply take_drop_middle.
    + unfold guidsOf. by rewrite fmap_take.
    + unfold guidsOf. rewrite fmap_take.
      apply list_elem_of_lookup. exists i. by rewrite lookup_take_lt.
Qed.

Lemma validateItemGUIDs_empty_guid_witness :
  validateItemGUIDs (feed "" [item "a" "" ""; item "b" "" "x"; item "c" "" ""])
  = Some "duplicate GUID found: ".
Proof.
  refine (proj2 (validateItemGUIDs_empty_guid
                   (feed "" [item "a" "" ""; item "b" "" "x";
                             item "c" "" ""]) 0 2 _ eq_refl eq_refl) _).
  - lia.
  - cbn. apply NoDup_cons. split; [|apply NoDup_singleton].
    intros Hin. apply list_elem_of_singleton in Hin. discriminate.
Defined.

(** *** Channel date against the date of the latest item *)

(** C6. With no items the consistency rule returns no error, whatever the
    channel date is.  With a first item, it returns a format error that
    quotes the channel date when the channel date does not parse, and a
    format error that quotes the first item's date when the channel date
    parses and that one does not. *)
Theorem validatePubDateUpdated_format_errors r :
  (Channel.Items (Channel r) = [] -> validatePubDateUpdated r = None)
  /\ (forall it rest,
        Channel.Items (Channel r) = it :: rest ->
        Parse (Channel.PubDate (Channel r)) = None ->
        validatePubDateUpdated r
        = Some ("invalid date format in channel '"
                +:+ Channel.PubDate (Channel r) +:+ "'"))
  /\ (forall it rest chanDate,
        Channel.Items (Channel r) = it :: rest ->
        Parse (Channel.PubDate (Channel r)) = Some chanDate ->
        Parse (Item.PubDate it) = None ->
        validatePubDateUpdated r
        = Some ("invalid date format in item '"
                +:+ Item.PubDate it +:+ "'")).
Proof.
  unfold validatePubDateUpdated. split; [|split].
  - by intros ->.
  - intros it rest -> Hc. by rewrite Hc.
  - intros it rest chanDate -> Hc Hi. by rewrite Hc, Hi.
Qed.

Lemma validatePubDateUpdated_format_errors_witness :
  validatePubDateUpdated (feed "never" []) = None
  /\ validatePubDateUpdated
       (feed "never" [item "a" "Mon, 02 Jan 2006 15:04:05 -0700" "g"])
     = Some "invalid date format in channel 'never'"
  /\ validatePubDateUpdated
       (feed "Mon, 02 Jan 2006 15:04:05 -0700" [item "a" "2006-01-02" "g"])
     = Some "invalid date format in item '2006-01-02'".
Proof.
  split; [|split].
  - exact (proj1 (validatePubDateUpdated_format_errors (feed "never" []))
             eq_refl).
  - refine (proj1 (proj2 (validatePubDateUpdated_format_errors
              (feed "never"
                 [item "a" "Mon, 02 Jan 2006 15:04:05 -0700" "g"])))
              _ _ eq_refl _).
    vm_compute. reflexivity.
  - refine (proj2 (proj2 (validatePubDateUpdated_format_errors
              (feed "Mon, 02 Jan 2006 15:04:05 -0700"
                 [item "a" "2006-01-02" "g"])))
              _ _ (mkTime 1136239445 0 (-25200)) eq_refl _ _).
    + vm_compute. reflexivity.
    + vm_compute. reflexivity.
Defined.

Lemma validatePubDateUpdated_parsed r it rest (chanDate itemDate : Time) :
  Channel.Items (Channel r) = it :: rest ->
  Parse (Channel.PubDate (Channel r)) = Some chanDate ->
  Parse (Item.PubDate it) = Some itemDate ->
  validatePubDateUpdated r
  = if Equal chanDate itemDate then None
    else Some "publication dates of channel and item do not match".
Proof.
  unfold validatePubDateUpdated. intros -> -> ->.
  by destruct (Equal chanDate itemDate).
Qed.

(** C7. When the channel date and the first item's date both parse, the
    consistency rule compares the two instants, not the two strings: it
    returns no error exactly when they are the same instant, and the
    "do not match" error exactly when they are not. *)
Theorem validatePubDateUpdated_instants r it rest (chanDate itemDate : Time) :
  Channel.Items (Channel r) = it :: rest ->
  Parse (Channel.PubDate (Channel r)) = Some chanDate ->
  Parse (Item.PubDate it) = Some itemDate ->
  (validatePubDateUpdated r = None <-> sameInstant chanDate itemDate)
  /\ (validatePubDateUpdated r
      = Some "publication dates of channel and item do not match"
      <-> ~ sameInstant chanDate itemDate).
Proof.
  intros Hitems Hc Hi.
  rewrite (validatePubDateUpdated_parsed r it rest _ _ Hitems Hc Hi).
  rewrite <- Equal_spec.
  destruct (Equal chanDate itemDate); split; split; done.
Qed.

(** The two strings differ, they are the same instant in two zones, and
    the rule finds them consistent; one second later it does not. *)
Lemma validatePubDateUpdated_instants_witness :
  "Tue, 01 Jan 2019 00:00:00 +0000" <> "Mon, 31 Dec 2018 16:00:00 -0800"
  /\ validatePubDateUpdated
       (feed "Tue, 01 Jan 2019 00:00:00 +0000"
          [item "a" "Mon, 31 Dec 2018 16:00:00 -0800" "g"]) = None
  /\ validatePubDateUpdated
       (feed "Tue, 01 Jan 2019 00:00:00 +0000"
          [item "a" "Mon, 31 Dec 2018 16:00:01 -0800" "g"])
     = Some "publication dates of channel and item do not match".
Proof.
  split; [discriminate|]. split.
  - refine (proj2 (proj1 (validatePubDateUpdated_instants
              (feed "Tue, 01 Jan 2019 00:00:00 +0000"
                 [item "a" "Mon, 31 Dec 2018 16:00:00 -0800" "g"])
              _ _ (mkTime 1546300800 0 0) (mkTime 1546300800 0 (-28800))
              eq_refl _ _)) _).
    + vm_compute. reflexivity.
    + vm_compute. reflexivity.
    + split; reflexivity.
  - refine (proj2 (proj2 (validatePubDateUpdated_instants
              (feed "Tue, 01 Jan 2019 00:00:00 +0000"
                 [item "a" "Mon, 31 Dec 2018 16:00:01 -0800" "g"])
              _ _ (mkTime 1546300800 0 0) (mkTime 1546300801 0 (-28800))
              eq_refl _ _)) _).
    + vm_compute. reflexivity.
    + vm_compute. reflexivity.
    + intros [H _]. discriminate H.
Defined.

(** C10. The consistency rule parses and nothing more: when the channel
    date and the first item's date parse and are the same instant, it
    returns no error, also when one of the strings is not what [Format]
    prints of its time, as with a wrong weekday name.  The channel date
    rule and the item date rule are the ones that reject such a string,
    with the day-of-week error. *)
Theorem validatePubDateUpdated_no_round_trip r it rest
    (chanDate itemDate : Time) :
  Channel.Items (Channel r) = it :: rest ->
  Parse (Channel.PubDate (Channel r)) = Some chanDate ->
  Parse (Item.PubDate it) = Some itemDate ->
  sameInstant chanDate itemDate ->
  validatePubDateUpdated r = None
  /\ (Format chanDate <> Channel.PubDate (Channel r) ->
      validatePubDate r
      = Some ("channel pub date: day of week is not correct: expected "
              +:+ Format chanDate
              +:+ ", got " +:+ Channel.PubDate (Channel r)))
  /\ (Format itemDate <> Item.PubDate it ->
      validateItemDates r
      = Some ("item '" +:+ Item.Title it
              +:+ "' pub date: day of week is not correct: expected "
              +:+ Format itemDate +:+ ", got " +:+ Item.PubDate it)).
Proof.
  intros Hitems Hc Hi Heq. split; [|split].
  - rewrite (validatePubDateUpdated_parsed r it rest _ _ Hitems Hc Hi).
    apply Equal_spec in Heq. by rewrite Heq.
  - intros Hne. unfold validatePubDate.
    by rewrite (validateRSSDate_mismatch _ _ Hc Hne).
  - intros Hne. unfold validateItemDates. rewrite Hitems.
    cbn [validateItemDates_loop].
    by rewrite (validateRSSDate_mismatch _ _ Hi Hne).
Qed.

(** Both strings carry a wrong weekday name: Wednesday for a Tuesday,
    Sunday for a Monday. *)
Lemma validatePubDateUpdated_no_round_trip_witness :
  let r := feed (withWeekday 3 "Tue, 01 Jan 2019 00:00:00 +0000")
             [item "a" (withWeekday 0 "Mon, 31 Dec 2018 16:00:00 -0800")
                "g"] in
  validatePubDateUpdated r = None
  /\ validatePubDate r
     = Some ("channel pub date: day of week is not correct: expected "
             +:+ "Tue, 01 Jan 2019 00:00:00 +0000"
             +:+ ", got " +:+ "Wed, 01 Jan 2019 00:00:00 +0000")
  /\ validateItemDates r
     = Some ("item 'a' pub date: day of week is not correct: expected "
             +:+ "Mon, 31 Dec 2018 16:00:00 -0800"
             +:+ ", got " +:+ "Sun, 31 Dec 2018 16:00:00 -0800").
Proof.
  intros r.
  destruct (validatePubDateUpdated_no_round_trip r
              (item "a" "Sun, 31 Dec 2018 16:00:00 -0800" "g") []
              (mkTime 1546300800 0 0) (mkTime 1546300800 0 (-28800)))
    as (H1 & H2 & H3).
  - reflexivity.
  - vm_compute. reflexivity.
  - vm_compute. reflexivity.
  - split; reflexivity.
  - split; [exact H1|]. split.
    + apply H2. vm_compute. discriminate.
    + apply H3. vm_compute. discriminate.
Defined.

(** *** The orchestrator *)

(** The loop of [Validate] gathers the errors of the four rules. *)
Lemma Validate_Join r :
  Validate r
  = errors.Join [validatePubDate r; validateItemGUIDs r;
                 validateItemDates r; validatePubDateUpdated r].
Proof.
  unfold Validate, rules, errors.Join. cbn [fold_left].
  unfold Validate_step.
  destruct (validatePubDate r), (validateItemGUIDs r),
    (validateItemDates r), (validatePubDateUpdated r); reflexivity.
Qed.

Lemma Join_None (es : list error) :
  errors.Join es = None <-> Forall (fun e => e = None) es.
Proof.
  unfold errors.Join. induction es as [|[e|] es IH].
  - cbn. split; [constructor|done].
  - cbn. split; [done|]. intros H. by apply Forall_cons in H as [? _].
  - cbn [omap list_omap id]. cbn [omap id] in IH. rewrite IH.
    rewrite Forall_cons. tauto.
Qed.

(** C1, with the rules in the order of the code.  [Validate] runs the four
    rules whatever the others return and joins every error they return;
    the messages come in the order in which [Validate] lists the rules:
    channel date, item identifiers, item dates, channel date against the
    latest item.  The result is [nil] exactly when every rule returns
    [nil]. *)
Theorem Validate_runs_every_rule r :
  Validate r
  = errors.Join [validatePubDate r; validateItemGUIDs r;
                 validateItemDates r; validatePubDateUpdated r]
  /\ from_option errors.errs [] (Validate r)
     = omap id [validatePubDate r; validateItemGUIDs r;
                validateItemDates r; validatePubDateUpdated r]
  /\ (Validate r = None
      <-> validatePubDate r = None /\ validateItemGUIDs r = None
          /\ validateItemDates r = None
          /\ validatePubDateUpdated r = None).
Proof.
  split; [apply Validate_Join|]. split.
  - rewrite Validate_Join. unfold errors.Join.
    destruct (validatePubDate r), (validateItemGUIDs r),
      (validateItemDates r), (validatePubDateUpdated r); reflexivity.
  - rewrite Validate_Join, Join_None, !Forall_cons, Forall_nil. tauto.
Qed.

(** C1 as the specification words it fails: this feed has a repeated
    identifier and an item date that does not parse; [Validate] reports
    the identifier first, the specification's order has the item date
    first. *)
Lemma Validate_spec_order_counterexample :
  let r := feed "Tue, 01 Jan 2019 00:00:00 +0000"
             [item "a" "Tue, 01 Jan 2019 00:00:00 +0000" "g";
              item "b" "not a date" "g"] in
  from_option errors.errs [] (Validate r)
  = ["duplicate GUID found: g";
     "item 'b' pub date: invalid date format in not a date"]
  /\ from_option errors.errs [] (Validate_spec r)
     = ["item 'b' pub date: invalid date format in not a date";
        "duplicate GUID found: g"]
  /\ Validate r <> Validate_spec r.
Proof.
  intros r. split; [vm_compute; reflexivity|].
  split; [vm_compute; reflexivity|].
  vm_compute. discriminate.
Qed.

(** C8. A feed passes when the validator accepts the channel date and
    every item date, the item identifiers are pairwise distinct, and the
    feed has no item or its channel date and its first item's date are the
    same instant: [Validate] returns [nil]. *)
Theorem Validate_valid_feed r :
  validateRSSDate (Channel.PubDate (Channel r)) = None ->
  Forall dateAccepted (Channel.Items (Channel r)) ->
  NoDup (guidsOf (Channel.Items (Channel r))) ->
  (Channel.Items (Channel r) = []
   \/ exists it rest chanDate itemDate,
        Channel.Items (Channel r) = it :: rest
        /\ Parse (Channel.PubDate (Channel r)) = Some chanDate
        /\ Parse (Item.PubDate it) = Some itemDate
        /\ sameInstant chanDate itemDate) ->
  Validate r = None.
Proof.
  intros Hchan Hitems Hnd Hsame.
  rewrite Validate_Join, Join_None, !Forall_cons, Forall_nil.
  split; [|split; [|split; [|split]]]; [| | | |done].
  - unfold validatePubDate. by rewrite Hchan.
  - by apply validateItemGUIDs_distinct.
  - by apply validateItemDates_loop_None.
  - destruct Hsame as [Hnil | (it & rest & t1 & t2 & Hi & H1 & H2 & Heq)].
    + unfold validatePubDateUpdated. by rewrite Hnil.
    + rewrite (validatePubDateUpdated_parsed r it rest t1 t2 Hi H1 H2).
      apply Equal_spec in Heq. by rewrite Heq.
Qed.

Lemma Validate_valid_feed_witness :
  Validate
    (feed "Tue, 01 Jan 2019 00:00:00 +0000"
       [item "a" "Mon, 31 Dec 2018 16:00:00 -0800" "g1";
        item "b" "Mon, 02 Jan 2006 15:04:05 -0700" "g2"]) = None.
Proof.
  apply Validate_valid_feed.
  - vm_compute. reflexivity.
  - repeat (apply Forall_cons; split; [vm_compute; reflexivity|]).
    apply Forall_nil_2.
  - unfold guidsOf. cbn [fmap list_fmap item Item.GUID feed Channel
                           Channel.Items].
    apply NoDup_cons. split; [|apply NoDup_singleton].
    intros Hin. apply list_elem_of_singleton in Hin. discriminate.
  - right.
    exists (item "a" "Mon, 31 Dec 2018 16:00:00 -0800" "g1"),
      [item "b" "Mon, 02 Jan 2006 15:04:05 -0700" "g2"],
      (mkTime 1546300800 0 0), (mkTime 1546300800 0 (-28800)).
    split; [reflexivity|]. split; [vm_compute; reflexivity|].
    split; [vm_compute; reflexivity|]. split; reflexivity.
Defined.

End rules.

(** ** The program around the rules *)

Section program.
Import time_facts.

Implicit Types (w : World) (t : filepath.tree) (st : mainState).

#[local] Arguments String.append !_ _ / : simpl nomatch.





(** *** [verifyRSS] *)

(** [verifyRSS] only adds to the output it is given. *)
Lemma verifyRSS_out w (path : string) (out : list string) :
  verifyRSS w path out
  = (out ++ fst (verifyRSS w path []), snd (verifyRSS w path [])).
Proof.
  unfold verifyRSS, Printf.
  destruct (ReadFile w path) as [data|e]; [|by rewrite app_nil_r].
  destruct (Unmarshal w data) as [rss|e]; [|by rewrite app_nil_r].
  destruct (RSS.Validate rss); [by rewrite app_nil_r|done].
Qed.

Lemma Validate_None_rules (rss : RSS.t) :
  RSS.Validate rss = None
  <-> RSS.validatePubDate rss = None /\ RSS.validateItemGUIDs rss = None
      /\ RSS.validateItemDates rss = None
      /\ RSS.validatePubDateUpdated rss = None.
Proof.
  rewrite Validate_Join, Join_None, !Forall_cons, Forall_nil. tauto.
Qed.

Lemma outcome_None w (path : string) : outcome w path = None <-> passes w path.
Proof.
  unfold outcome, passes, verifyRSS. split.
  - destruct (ReadFile w path) as [data|e]; [|done].
    destruct (Unmarshal w data) as [rss|e] eqn:Hrss; [|done].
    destruct (RSS.Validate rss) eqn:Hv; [done|]. intros _.
    exists data, rss. by apply Validate_None_rules in Hv.
  - intros (data & rss & -> & -> & Hrules).
    apply Validate_None_rules in Hrules. by rewrite Hrules.
Qed.

Lemma verifyRSS_output w (path : string) (out : list string) :
  fst (verifyRSS w path out)
  = if bool_decide (snd (verifyRSS w path out) = None)
    then out ++ ["RSS file verification passed for " +:+ path +:+ "!"
                 +:+ errors.newline +:+ "f"]
    else out.
Proof.
  unfold verifyRSS, Printf.
  destruct (ReadFile w path) as [data|e]; [|done].
  destruct (Unmarshal w data) as [rss|e]; [|done].
  by destruct (RSS.Validate rss).
Qed.

(** X2. [verifyRSS] returns [nil] exactly when the file can be read, its
    bytes decode to a feed and the feed passes every one of the four rules.
    It prints its one line, the line that says the file passed, exactly in
    that case, and leaves the output as it was in every other. *)
Theorem verifyRSS_passes w (path : string) (out : list string) :
  (snd (verifyRSS w path out) = None <-> passes w path)
  /\ fst (verifyRSS w path out)
     = if bool_decide (snd (verifyRSS w path out) = None)
       then out ++ ["RSS file verification passed for " +:+ path +:+ "!"
                    +:+ errors.newline +:+ "f"]
       else out.
Proof.
  split.
  - rewrite verifyRSS_out. apply outcome_None.
  - apply verifyRSS_output.
Qed.

(** X3. The error of [verifyRSS] says which stage failed: reading, decoding
    or validating.  When the file cannot be read the message does not name
    the path; in the two other cases it does, and a feed that breaks the
    rules gets the messages of all the rules it breaks, one per line. *)
Theorem verifyRSS_error w (path : string) (out : list string) :
  match ReadFile w path with
  | inr e => snd (verifyRSS w path out) = Some ("error reading file: " +:+ e)
  | inl data =>
      match Unmarshal w data with
      | inr e =>
          snd (verifyRSS w path out)
          = Some ("invalid XML in " +:+ path +:+ ": " +:+ e)
      | inl rss =>
          snd (verifyRSS w path out)
          = match omap id [RSS.validatePubDate rss; RSS.validateItemGUIDs rss;
                           RSS.validateItemDates rss;
                           RSS.validatePubDateUpdated rss] with
            | [] => None
            | e0 :: rest =>
                Some ("error in " +:+ path +:+ ": "
                      +:+ fold_left
                            (fun b e => b +:+ errors.newline +:+ e) rest e0)
            end
      end
  end.
Proof.
  unfold verifyRSS.
  destruct (ReadFile w path) as [data|e]; [|done].
  destruct (Unmarshal w data) as [rss|e]; [|done].
  rewrite Validate_Join. unfold errors.Join.
  destruct (RSS.validatePubDate rss), (RSS.validateItemGUIDs rss),
    (RSS.validateItemDates rss), (RSS.validatePubDateUpdated rss);
    reflexivity.
Qed.

(** *** [main] *)

Lemma afterFiles_nil w st : afterFiles w [] st = st.
Proof.
  destruct st as [b out]. unfold afterFiles. cbn.
  by rewrite andb_true_r, app_nil_r.
Qed.

Lemma afterFiles_app w (ps ps' : list string) st :
  afterFiles w ps' (afterFiles w ps st) = afterFiles w (ps ++ ps') st.
Proof.
  unfold afterFiles. cbn [success stdout].
  rewrite forallb_app, fmap_app, concat_app, andb_assoc.
  by rewrite <- app_assoc.
Qed.

(** The walk function on one node: an error stops the walk, a feed file
    that is not a directory is verified, anything else is passed over. *)
Lemma mainWalkFn_error w (path : string) info (e : string) st :
  mainWalkFn w path info (Some e) st = (st, Some (filepath.OtherError e)).
Proof. reflexivity. Qed.

Lemma mainWalkFn_dir w (path : string) st :
  mainWalkFn w path (Some (filepath.mkFileInfo true)) None st = (st, None).
Proof. reflexivity. Qed.

Lemma mainWalkFn_file w (path : string) st :
  mainWalkFn w path (Some (filepath.mkFileInfo false)) None st
  = (afterFiles w (if isFeedFile path then [path] else []) st, None).
Proof.
  unfold mainWalkFn. cbn [filepath.IsDir negb andb]. fold (isFeedFile path).
  destruct (isFeedFile path); [|by rewrite afterFiles_nil].
  rewrite verifyRSS_out. fold (outcome w path).
  pose proof (verifyRSS_output w path []) as Hout.
  fold (outcome w path) in Hout. cbn [app] in Hout.
  unfold afterFiles, report, Printf. cbn [fmap list_fmap concat forallb].
  rewrite Hout, app_nil_r, andb_true_r.
  destruct (outcome w path) as [e|].
  - rewrite bool_decide_eq_false_2 by done. rewrite andb_false_r.
    rewrite app_nil_r. by rewrite <- app_assoc.
  - rewrite bool_decide_eq_true_2 by done. rewrite andb_true_r.
    by rewrite <- !app_assoc.
Qed.

(** The walk of [main] over a tree is the walk that [visit] describes. *)
Lemma walk_mainWalkFn w t :
  forall st,
    filepath.walk (mainWalkFn w) t st
    = (afterFiles w (fst (visit t)) st,
       filepath.OtherError <$> snd (visit t)).
Proof.
  induction t as [path e | path | path readErr entries IH]
    using tree_ind_entries; intros st.
  - cbn. by rewrite afterFiles_nil.
  - cbn [filepath.walk visit fst snd]. by rewrite mainWalkFn_file.
  - cbn [filepath.walk visit]. destruct readErr as [e|].
    + rewrite mainWalkFn_error. cbn. by rewrite afterFiles_nil.
    + rewrite mainWalkFn_dir. cbn [bool_decide orb].
      rewrite !bool_decide_eq_false_2 by (intros H; by apply H).
      cbn [orb]. revert st.
      induction IH as [|entry entries Hentry _ IHentries]; intros st.
      * cbn. by rewrite afterFiles_nil.
      * cbn [visitEntries]. rewrite Hentry.
        destruct (visit entry) as [paths [e|]]; cbn [fst snd fmap option_fmap
                                                       option_map].
        -- by destruct entry.
        -- rewrite IHentries.
           destruct (visitEntries visit entries) as [paths' err].
           cbn [fst snd]. by rewrite afterFiles_app.
Qed.

(** [main] in terms of [visit]. *)
Lemma main_visit w t :
  main w t
  = (concat (report w <$> fst (visit t))
     ++ match snd (visit t) with
        | Some e => ["Error walking the path: " +:+ e +:+ errors.newline]
        | None => []
        end,
     match snd (visit t) with
     | Some _ => 1
     | None =>
         if forallb (fun p => bool_decide (outcome w p = None)) (fst (visit t))
         then 0 else 1
     end).
Proof.
  unfold main, filepath.Walk. rewrite walk_mainWalkFn.
  destruct (snd (visit t)) as [e|]; cbn [fmap option_fmap option_map].
  - reflexivity.
  - cbn [afterFiles success stdout andb app].
    rewrite app_nil_r.
    by destruct (forallb _ _).
Qed.

Lemma forallb_passes w (paths : list string) :
  forallb (fun p => bool_decide (outcome w p = None)) paths = true
  <-> Forall (passes w) paths.
Proof.
  induction paths as [|p paths IH]; cbn [forallb].
  - split; [constructor|done].
  - rewrite andb_true_iff, Forall_cons, IH, bool_decide_eq_true.
    by rewrite outcome_None.
Qed.

(** X4. [main] prints the two-line report of every feed file that the walk
    reaches, in the order of the walk, a file that fails never keeping the
    next ones from being verified; when the walk stops on an error, the
    files after it get no report and the last line names the error. *)
Theorem main_output w t :
  fst (main w t)
  = concat (report w <$> fst (visit t))
    ++ match snd (visit t) with
       | Some e => ["Error walking the path: " +:+ e +:+ errors.newline]
       | None => []
       end.
Proof. by rewrite main_visit. Qed.

(** X5. The exit status of [main] is 0 or 1, and it is 0 exactly when the
    walk meets no error and every feed file it reaches can be read, decodes
    and passes the four rules. *)
Theorem main_exit_status w t :
  (snd (main w t) = 0 \/ snd (main w t) = 1)
  /\ (snd (main w t) = 0
      <-> snd (visit t) = None /\ Forall (passes w) (fst (visit t))).
Proof.
  rewrite main_visit. cbn [snd].
  destruct (snd (visit t)) as [e|].
  { split; [by right|]. split; [done|]. by intros [? _]. }
  pose proof (forallb_passes w (fst (visit t))) as Hiff.
  destruct (forallb _ _).
  - split; [by left|]. split; [|done]. intros _. split; [done|].
    by apply Hiff.
  - split; [by right|]. split; [done|]. intros [_ Hpass].
    by apply Hiff in Hpass.
Qed.

(** In a tree without errors the walk reaches every feed file. *)
Lemma visit_healthy t :
  healthy t = true -> visit t = (allFeedFiles t, None).
Proof.
  induction t as [path e | path | path readErr entries IH]
    using tree_ind_entries; [done|done|].
  cbn [healthy visit allFeedFiles]. destruct readErr as [e|]; [done|].
  induction IH as [|entry entries Hentry _ IHentries]; [done|].
  cbn [forallb]. intros [H1 H2]%andb_true_iff.
  cbn [visitEntries map concat]. rewrite (Hentry H1).
  by rewrite (IHentries H2).
Qed.

(** X6. When every name under the root can be examined and every directory
    read, [main] verifies and reports every regular file of the tree that
    has a feed suffix, at any depth, and exits with 0 exactly when all of
    them pass. *)
Theorem main_healthy_tree w t :
  healthy t = true ->
  fst (main w t) = concat (report w <$> allFeedFiles t)
  /\ (snd (main w t) = 0 <-> Forall (passes w) (allFeedFiles t))
  /\ (snd (main w t) = 1 <-> ~ Forall (passes w) (allFeedFiles t)).
Proof.
  intros Hh. rewrite main_visit, (visit_healthy t Hh). cbn [fst snd].
  rewrite app_nil_r. split; [done|].
  pose proof (forallb_passes w (allFeedFiles t)) as Hiff.
  destruct (forallb _ _).
  - split; [tauto|]. split; [done|]. intros H. destruct H. tauto.
  - assert (Hnot : ~ Forall (passes w) (allFeedFiles t)).
    { intros H. apply Hiff in H. done. }
    split; [split; [done|tauto]|tauto].
Qed.

(** A tree with an error stops the walk. *)
Lemma visit_unhealthy t :
  healthy t = false -> exists e, snd (visit t) = Some e.
Proof.
  induction t as [path e | path | path readErr entries IH]
    using tree_ind_entries; [by exists e|done|].
  cbn [healthy visit]. destruct readErr as [e|]; [by exists e|].
  induction IH as [|entry entries Hentry _ IHentries]; [done|].
  cbn [forallb visitEntries]. intros Hh.
  destruct (healthy entry) eqn:Hentry'.
  - rewrite (visit_healthy entry Hentry'). cbn [andb] in Hh.
    destruct (IHentries Hh) as [e He].
    destruct (visitEntries visit entries) as [paths' err].
    cbn [snd] in *. by exists e.
  - destruct (Hentry eq_refl) as [e He].
    destruct (visit entry) as [paths err]. cbn [snd] in He. subst err.
    by exists e.
Qed.

(** X16. [main] exits with 0 exactly when every name under the root can be
    examined, every directory can be read, and every regular file with a
    feed suffix, at any depth, can be read, decodes and passes the four
    rules. *)
Theorem main_success_iff w t :
  snd (main w t) = 0
  <-> healthy t = true /\ Forall (passes w) (allFeedFiles t).
Proof.
  rewrite main_visit. cbn [snd].
  destruct (healthy t) eqn:Hh.
  - rewrite (visit_healthy t Hh). cbn [fst snd].
    pose proof (forallb_passes w (allFeedFiles t)) as Hiff.
    destruct (forallb _ _).
    + split; [|done]. intros _. split; [done|]. by apply Hiff.
    + split; [done|]. intros [_ H]. by apply Hiff in H.
  - destruct (visit_unhealthy t Hh) as [e ->]. split; [done|]. by intros [? _].
Qed.

(** One feed file passes, the other has a repeated identifier: both are
    reported, the text file is not, and the exit status is 1. *)
Lemma main_healthy_tree_witness :
  fst (main exampleWorld exampleTree)
  = [ "Verifying feed/good.xml..." +:+ errors.newline;
      "RSS file verification passed for feed/good.xml!" +:+ errors.newline
      +:+ "f";
      "Verifying feed/sub/dup.rss..." +:+ errors.newline;
      "Validation failed: error in feed/sub/dup.rss: "
      +:+ "duplicate GUID found: abc123" +:+ errors.newline ]
  /\ snd (main exampleWorld exampleTree) = 1.
Proof.
  destruct (main_healthy_tree exampleWorld exampleTree eq_refl)
    as (Hout & _ & Hexit).
  split.
  - rewrite Hout. vm_compute. reflexivity.
  - apply Hexit. intros Hall.
    change (allFeedFiles exampleTree)
      with ["feed/good.xml"; "feed/sub/dup.rss"] in Hall.
    apply Forall_cons in Hall as [_ Hall].
    apply Forall_cons in Hall as [(data & rss & Hread & Hxml & _ & Hg & _) _].
    vm_compute in Hread. injection Hread as <-.
    vm_compute in Hxml. injection Hxml as <-.
    vm_compute in Hg. discriminate Hg.
Defined.
End program.

(** ** More on the rules *)

Section rules_more.
Import time time_facts RSS.

Implicit Types (r : RSS.t) (items : list Item.t).

Lemma validateItemGUIDs_None_NoDup r :
  validateItemGUIDs r = None -> NoDup (guidsOf (Channel.Items (Channel r))).
Proof.
  intros Hnone.
  destruct (decide (NoDup (guidsOf (Channel.Items (Channel r)))))
    as [|Hdup]; [done|].
  destruct (first_repeated_guid _ Hdup) as (pre & it & post & Hi & Hnd & Hin).
  by rewrite (validateItemGUIDs_repeated r pre it post Hi Hnd Hin) in Hnone.
Qed.

(** X7. The identifier rule returns no error exactly when no two items of
    the feed have the same identifier. *)
Theorem validateItemGUIDs_None_iff r :
  validateItemGUIDs r = None <-> NoDup (guidsOf (Channel.Items (Channel r))).
Proof.
  split; [apply validateItemGUIDs_None_NoDup|apply validateItemGUIDs_distinct].
Qed.

(** X8. An error of the identifier rule names an identifier that two items
    of the feed have. *)
Theorem validateItemGUIDs_error_names_repeated r (e : string) :
  validateItemGUIDs r = Some e ->
  exists (g : string) (i j : nat),
    e = "duplicate GUID found: " +:+ g
    /\ (i < j)%nat
    /\ guidsOf (Channel.Items (Channel r)) !! i = Some g
    /\ guidsOf (Channel.Items (Channel r)) !! j = Some g.
Proof.
  intros He.
  destruct (decide (NoDup (guidsOf (Channel.Items (Channel r)))))
    as [Hnd|Hdup].
  { by rewrite (validateItemGUIDs_distinct r Hnd) in He. }
  destruct (first_repeated_guid _ Hdup) as (pre & it & post & Hi & Hnd & Hin).
  rewrite (validateItemGUIDs_repeated r pre it post Hi Hnd Hin) in He.
  injection He as <-.
  apply list_elem_of_lookup in Hin as [i Hi'].
  exists (Item.GUID it), i, (length pre). split; [done|].
  assert (Hlen : (i < length pre)%nat).
  { apply lookup_lt_Some in Hi'. unfold guidsOf in Hi'.
    by rewrite length_fmap in Hi'. }
  split; [done|]. rewrite Hi. unfold guidsOf in *. rewrite fmap_app.
  split.
  - rewrite lookup_app_l by (by rewrite length_fmap). done.
  - rewrite lookup_app_r by (by rewrite length_fmap).
    rewrite length_fmap, Nat.sub_diag. done.
Qed.

Lemma validateItemGUIDs_error_names_repeated_witness :
  exists (g : string) (i j : nat),
    "duplicate GUID found: x" = "duplicate GUID found: " +:+ g
    /\ (i < j)%nat
    /\ ["x"; "y"; "x"] !! i = Some g /\ ["x"; "y"; "x"] !! j = Some g.
Proof.
  apply (validateItemGUIDs_error_names_repeated
           (feed "" [item "a" "" "x"; item "b" "" "y"; item "c" "" "x"])).
  vm_compute. reflexivity.
Defined.

Lemma validateItemDates_None_Forall r :
  validateItemDates r = None ->
  Forall dateAccepted (Channel.Items (Channel r)).
Proof.
  unfold validateItemDates.
  induction (Channel.Items (Channel r)) as [|it items IH]; [constructor|].
  cbn [validateItemDates_loop].
  destruct (validateRSSDate (Item.PubDate it)) eqn:Hit; [done|].
  intros H. constructor; [exact Hit|by apply IH].
Qed.

(** X9. The item date rule returns no error exactly when the date validator
    accepts the publication date of every item. *)
Theorem validateItemDates_None_iff r :
  validateItemDates r = None
  <-> Forall dateAccepted (Channel.Items (Channel r)).
Proof.
  split; [apply validateItemDates_None_Forall|].
  apply validateItemDates_loop_None.
Qed.

(** X10. The error that [Validate] returns is never empty: it holds at
    least one and at most four messages, at most one from each rule. *)
Theorem Validate_error_count r (je : errors.joinError) :
  Validate r = Some je ->
  (1 <= length (errors.errs je) <= 4)%nat.
Proof.
  rewrite Validate_Join. unfold errors.Join.
  destruct (validatePubDate r), (validateItemGUIDs r),
    (validateItemDates r), (validatePubDateUpdated r);
    cbn; intros H; try discriminate H; injection H as <-; cbn; lia.
Qed.

Lemma Validate_error_count_witness :
  (1 <= length ["duplicate GUID found: g"] <= 4)%nat.
Proof.
  apply (Validate_error_count
           (feed "Tue, 01 Jan 2019 00:00:00 +0000"
              [item "a" "Tue, 01 Jan 2019 00:00:00 +0000" "g";
               item "b" "Tue, 01 Jan 2019 00:00:00 +0000" "g"])
           (errors.mkJoinError ["duplicate GUID found: g"])).
  vm_compute. reflexivity.
Defined.

(** X11. The consistency rule reports a format error only for a date that
    the channel date rule or the item date rule rejects as well: when these
    two rules return no error, the consistency rule returns no error or the
    "do not match" error. *)
Theorem validatePubDateUpdated_after_date_rules r :
  validatePubDate r = None ->
  validateItemDates r = None ->
  validatePubDateUpdated r = None
  \/ validatePubDateUpdated r
     = Some "publication dates of channel and item do not match".
Proof.
  unfold validatePubDate, validateItemDates, validatePubDateUpdated.
  intros Hchan Hitems.
  destruct (Channel.Items (Channel r)) as [|it rest]; [by left|].
  destruct (validateRSSDate (Channel.PubDate (Channel r))) eqn:Hc; [done|].
  apply validateRSSDate_None_inv in Hc as (t1 & -> & _).
  cbn [validateItemDates_loop] in Hitems.
  destruct (validateRSSDate (Item.PubDate it)) eqn:Hi; [done|].
  apply validateRSSDate_None_inv in Hi as (t2 & -> & _).
  destruct (Equal t1 t2); [by left|by right].
Qed.

Lemma validatePubDateUpdated_after_date_rules_witness :
  validatePubDateUpdated
    (feed "Tue, 01 Jan 2019 00:00:00 +0000"
       [item "a" "Mon, 02 Jan 2006 15:04:05 -0700" "g"]) = None
  \/ validatePubDateUpdated
       (feed "Tue, 01 Jan 2019 00:00:00 +0000"
          [item "a" "Mon, 02 Jan 2006 15:04:05 -0700" "g"])
     = Some "publication dates of channel and item do not match".
Proof.
  apply validatePubDateUpdated_after_date_rules.
  - vm_compute. reflexivity.
  - vm_compute. reflexivity.
Defined.
End rules_more.

(** ** The calendar of the [time] model *)

Module calendar_facts.
Import gostring time time_facts.

Lemma isLeap_true (y : Z) :
  0 <= y ->
  isLeap y = true <-> y mod 4 = 0 /\ (y mod 100 <> 0 \/ y mod 400 = 0).
Proof.
  intros Hy. unfold isLeap. rewrite !Z.rem_mod_nonneg by lia.
  rewrite andb_true_iff, orb_true_iff, negb_true_iff, !Z.eqb_eq, Z.eqb_neq.
  tauto.
Qed.

(** [absYearDay] on a count of days written by cycles of 400, 100 and 4
    years, years and days; the day 365 exists in the last year of a cycle
    of 4, unless the cycle ends a century that does not end a cycle of
    400. *)
Lemma absYearDay_cycles (a b c e yd : Z) :
  0 <= a -> 0 <= b <= 3 -> 0 <= c <= 24 -> 0 <= e <= 3 ->
  0 <= yd <= 365 ->
  (yd = 365 -> e = 3 /\ (c <> 24 \/ b = 3)) ->
  absYearDay (146097 * a + 36524 * b + 1461 * c + 365 * e + yd)
  = (400 * a + 100 * b + 4 * c + e + absoluteZeroYear, yd).
Proof.
  intros Ha Hb Hc He Hyd Hleap.
  unfold absYearDay, daysPer400Years, daysPer100Years, daysPer4Years.
  rewrite !Z.shiftr_div_pow2 by lia. change (2 ^ 2) with 4.
  set (D := 146097 * a + 36524 * b + 1461 * c + 365 * e + yd).
  assert (H1 : D / 146097 = a) by (subst D; Z.div_mod_to_equations; lia).
  cbv zeta. rewrite H1.
  set (D1 := D - 146097 * a).
  assert (HD1 : D1 = 36524 * b + 1461 * c + 365 * e + yd)
    by (subst D1 D; lia).
  assert (H2 : D1 / 36524 - D1 / 36524 / 4 = b).
  { rewrite HD1. Z.div_mod_to_equations. lia. }
  rewrite H2.
  set (D2 := D1 - 36524 * b).
  assert (HD2 : D2 = 1461 * c + 365 * e + yd) by (subst D2; lia).
  assert (H3 : D2 / 1461 = c) by (rewrite HD2; Z.div_mod_to_equations; lia).
  rewrite H3.
  set (D3 := D2 - 1461 * c).
  assert (HD3 : D3 = 365 * e + yd) by (subst D3; lia).
  assert (H4 : D3 / 365 - D3 / 365 / 4 = e)
    by (rewrite HD3; Z.div_mod_to_equations; lia).
  rewrite H4. f_equal. lia.
Qed.

(** [absYearDay] undoes [daysSinceEpoch]. *)
Lemma absYearDay_daysSinceEpoch (y yd : Z) :
  0 <= y ->
  0 <= yd < (if isLeap y then 366 else 365) ->
  absYearDay (daysSinceEpoch y + yd) = (y, yd).
Proof.
  intros Hy Hyd.
  unfold daysSinceEpoch, daysPer400Years, daysPer100Years, daysPer4Years.
  cbv zeta.
  set (Y := y - absoluteZeroYear).
  set (a := Y / 400). set (r1 := Y - 400 * a).
  set (b := r1 / 100). set (r2 := r1 - 100 * b).
  set (c := r2 / 4). set (e := r2 - 4 * c).
  assert (HY : 0 <= Y) by (subst Y; unfold absoluteZeroYear; lia).
  assert (Ha : 0 <= a /\ 0 <= r1 < 400)
    by (subst r1 a; Z.div_mod_to_equations; lia).
  assert (Hb : 0 <= b <= 3 /\ 0 <= r2 < 100)
    by (subst r2 b; Z.div_mod_to_equations; lia).
  assert (Hc : 0 <= c <= 24 /\ 0 <= e <= 3)
    by (subst e c; Z.div_mod_to_equations; lia).
  assert (Hy' : y = 400 * a + 100 * b + 4 * c + e + absoluteZeroYear)
    by (subst e r2 r1 Y; lia).
  replace (y, yd)
    with (400 * a + 100 * b + 4 * c + e + absoluteZeroYear, yd)
    by (f_equal; lia).
  apply absYearDay_cycles; try lia.
  { destruct (isLeap y); lia. }
  intros ->. destruct (isLeap y) eqn:Hl; [|lia].
  apply isLeap_true in Hl; [|lia].
  clearbody a b c e. clear -Hl Hy' Ha Hb Hc. unfold absoluteZeroYear in Hy'.
  Z.div_mod_to_equations. lia.
Qed.

Lemma month_cases (m : Z) :
  1 <= m <= 12 ->
  m = 1 \/ m = 2 \/ m = 3 \/ m = 4 \/ m = 5 \/ m = 6 \/ m = 7 \/ m = 8
  \/ m = 9 \/ m = 10 \/ m = 11 \/ m = 12.
Proof. lia. Qed.

Ltac each_month H :=
  apply month_cases in H;
  destruct H as [->|[->|[->|[->|[->|[->|[->|[->|[->|[->|[->| ->]]]]]]]]]]].

(** Evaluate the table lookups and the tests on a month that is known. *)
Ltac eval_closed :=
  repeat match goal with
    | |- context [daysBefore_at ?k] =>
        let v := eval vm_compute in (daysBefore_at k) in
        change (daysBefore_at k) with v
    | H : context [daysBefore_at ?k] |- _ =>
        let v := eval vm_compute in (daysBefore_at k) in
        change (daysBefore_at k) with v in H
    | |- context [if ?b then _ else _] =>
        let v := eval vm_compute in b in
        change b with v; cbv iota
    | H : context [if ?b then _ else _] |- _ =>
        let v := eval vm_compute in b in
        change b with v in H; cbv iota in H
    end.

Lemma daysIn_range (m y : Z) : 1 <= m <= 12 -> 28 <= daysIn m y <= 31.
Proof.
  intros H. unfold daysIn. destruct (isLeap y); each_month H; by vm_compute.
Qed.

(** [monthDay] undoes the count of the days before a date in its year. *)
Lemma monthDay_dayOfYear (y m d : Z) :
  1 <= m <= 12 ->
  1 <= d <= daysIn m y ->
  monthDay (isLeap y) (dayOfYear y m d - 1) = (m, d).
Proof.
  intros Hm Hd. pose proof (daysIn_range m y Hm) as H31.
  unfold dayOfYear, daysIn in *. revert Hd H31.
  generalize (isLeap y) as leap. intros leap Hd H31.
  pose (ok := fun (leap : bool) (m d : Z) =>
    let r := monthDay leap
               (daysBefore_at (m - 1) + (if leap && (3 <=? m) then 1 else 0)
                + d - 1) in
    implb (d <=? (if (m =? 2) && leap then 29
                  else daysBefore_at m - daysBefore_at (m - 1)))
      ((fst r =? m) && (snd r =? d))).
  assert (Hall : forallb (fun l => forallb (fun m => forallb (ok l m)
                    (seqZ 1 31)) (seqZ 1 12)) [true; false] = true)
    by (vm_compute; reflexivity).
  assert (Hok : ok leap m d = true).
  { rewrite <- Is_true_true in Hall.
    rewrite forallb_True, Forall_forall in Hall.
    assert (Hl : leap ∈ [true; false]) by (destruct leap; repeat constructor).
    specialize (Hall leap Hl).
    rewrite forallb_True, Forall_forall in Hall.
    specialize (Hall m). rewrite elem_of_seqZ in Hall.
    specialize (Hall ltac:(lia)).
    rewrite forallb_True, Forall_forall in Hall.
    specialize (Hall d). rewrite elem_of_seqZ in Hall.
    apply Is_true_true. apply Hall. lia. }
  unfold ok in Hok. cbv zeta in Hok.
  destruct (Z.leb_spec d (if (m =? 2) && leap then 29
                          else daysBefore_at m - daysBefore_at (m - 1)));
    [|lia].
  cbn [implb] in Hok. apply andb_true_iff in Hok as [H1 H2].
  apply Z.eqb_eq in H1, H2.
  destruct (monthDay _ _) as [m' d']. cbn in H1, H2. by subst.
Qed.


(** [absDate] by its two halves. *)
Lemma absDate_split (abs : Z) :
  absDate abs
  = let '(y, yd) := absYearDay (abs / secondsPerDay) in
    let '(m, d) := monthDay (isLeap y) yd in (y, m, d).
Proof.
  unfold absDate, absYearDay, monthDay. cbv zeta.
  set (Y := _ + absoluteZeroYear).
  match goal with |- context [isLeap Y && (?d =? _)] => set (D := d) end.
  destruct (isLeap Y && (D =? 31 + 29 - 1)); [reflexivity|].
  destruct (isLeap Y && (31 + 29 - 1 <? D)).
  - destruct (daysBefore_at (Z.quot (D - 1) 31 + 1) <=? D - 1); reflexivity.
  - destruct (daysBefore_at (Z.quot D 31 + 1) <=? D); reflexivity.
Qed.

Lemma dayOfYear_range (y m d : Z) :
  1 <= m <= 12 -> 1 <= d <= daysIn m y ->
  1 <= dayOfYear y m d <= (if isLeap y then 366 else 365).
Proof.
  intros Hm Hd. unfold dayOfYear, daysIn in *.
  destruct (isLeap y); each_month Hm; eval_closed; lia.
Qed.

Lemma daysSinceEpoch_dayNumber (y : Z) :
  daysSinceEpoch y
  = 365 * (y - 1) + (y - 1) / 4 - (y - 1) / 100 + (y - 1) / 400
    + 146097 * 730692556.
Proof.
  unfold daysSinceEpoch, daysPer400Years, daysPer100Years, daysPer4Years,
    absoluteZeroYear. cbv zeta.
  Z.div_mod_to_equations. lia.
Qed.

Lemma daysSinceEpoch_nonneg (y : Z) : 0 <= y -> 0 <= daysSinceEpoch y.
Proof.
  intros Hy. rewrite daysSinceEpoch_dayNumber. Z.div_mod_to_equations. lia.
Qed.

Lemma absDate_absOf (y m d hh mm ss : Z) :
  0 <= y -> 1 <= m <= 12 -> 1 <= d <= daysIn m y ->
  0 <= hh <= 23 -> 0 <= mm <= 59 -> 0 <= ss <= 59 ->
  absDate (absOf y m d hh mm ss) = (y, m, d).
Proof.
  intros Hy Hm Hd Hhh Hmm Hss.
  pose proof (dayOfYear_range y m d Hm Hd) as Hdoy.
  rewrite absDate_split. unfold absOf.
  replace ((_ * secondsPerDay + _) / secondsPerDay)
    with (daysSinceEpoch y + (dayOfYear y m d - 1)).
  2:{ unfold secondsPerDay, secondsPerHour, secondsPerMinute.
      Z.div_mod_to_equations. lia. }
  rewrite absYearDay_daysSinceEpoch by (destruct (isLeap y); lia).
  by rewrite monthDay_dayOfYear.
Qed.

Lemma absClock_absOf (y m d hh mm ss : Z) :
  0 <= hh <= 23 -> 0 <= mm <= 59 -> 0 <= ss <= 59 ->
  absClock (absOf y m d hh mm ss) = (hh, mm, ss).
Proof.
  intros Hhh Hmm Hss.
  unfold absClock, absOf, secondsPerDay, secondsPerHour, secondsPerMinute.
  cbv zeta.
  set (days := daysSinceEpoch y + (dayOfYear y m d - 1)).
  assert (H1 : (days * 86400 + (hh * 3600 + mm * 60 + ss)) mod 86400
               = hh * 3600 + mm * 60 + ss)
    by (Z.div_mod_to_equations; lia).
  rewrite H1.
  assert (H2 : Z.quot (hh * 3600 + mm * 60 + ss) 3600 = hh)
    by (Z.quot_rem_to_equations; lia).
  rewrite H2.
  assert (H3 : Z.quot (hh * 3600 + mm * 60 + ss - hh * 3600) 60 = mm)
    by (Z.quot_rem_to_equations; lia).
  rewrite H3. repeat f_equal. lia.
Qed.

Lemma absWeekday_absOf (y m d hh mm ss : Z) :
  0 <= hh <= 23 -> 0 <= mm <= 59 -> 0 <= ss <= 59 ->
  absWeekday (absOf y m d hh mm ss) = dayNumber y m d mod 7.
Proof.
  intros Hhh Hmm Hss.
  unfold absWeekday, absOf, dayNumber, secondsPerDay, secondsPerHour,
    secondsPerMinute, secondsPerWeek.
  rewrite daysSinceEpoch_dayNumber.
  set (doy := dayOfYear y m d).
  Z.div_mod_to_equations. Z.quot_rem_to_equations. lia.
Qed.


(** *** [Date] and [Format] on the fields of a date *)

Lemma norm_in_range (hi lo base : Z) :
  0 <= lo < base -> norm hi lo base = (hi, lo).
Proof.
  intros H. unfold norm.
  destruct (Z.ltb_spec lo 0); [lia|].
  destruct (Z.leb_spec base lo); [lia|done].
Qed.

Lemma Date_absOf (y m d hh mm ss ns : Z) :
  1 <= m <= 12 -> 0 <= hh <= 23 -> 0 <= mm <= 59 -> 0 <= ss <= 59 ->
  0 <= ns < 1000000000 ->
  Date y m d hh mm ss ns
  = mkTime (absOf y m d hh mm ss + (absoluteToInternal + internalToUnix))
      ns 0.
Proof.
  intros Hm Hhh Hmm Hss Hns. unfold Date.
  rewrite !norm_in_range by lia.
  unfold absOf, dayOfYear.
  replace (m - 1 + 1) with m by lia.
  f_equal. destruct (isLeap y && (3 <=? m)); lia.
Qed.

(** The instant of the fields, from the seconds since the absolute epoch. *)
Lemma unixOf_absOf (f : dateFields) :
  unixOf f
  = absOf (f_year f) (f_month f) (f_day f) (f_hour f) (f_min f) (f_sec f)
    + (absoluteToInternal + internalToUnix) - offsetOf f.
Proof.
  unfold unixOf, absOf, dayNumber. rewrite daysSinceEpoch_dayNumber.
  unfold secondsPerDay, secondsPerHour, secondsPerMinute, absoluteToInternal,
    internalToUnix, unixToInternal.
  lia.
Qed.

Lemma absOf_range (y m d hh mm ss : Z) :
  0 <= y <= 9999 -> 1 <= m <= 12 -> 1 <= d <= daysIn m y ->
  0 <= hh <= 23 -> 0 <= mm <= 59 -> 0 <= ss <= 59 ->
  0 <= absOf y m d hh mm ss < 2 ^ 64.
Proof.
  intros Hy Hm Hd Hhh Hmm Hss.
  pose proof (dayOfYear_range y m d Hm Hd) as Hdoy.
  assert (Hdoy' : 1 <= dayOfYear y m d <= 366)
    by (destruct (isLeap y); lia).
  unfold absOf. rewrite daysSinceEpoch_dayNumber.
  unfold secondsPerDay, secondsPerHour, secondsPerMinute.
  set (doy := dayOfYear y m d) in *. clearbody doy.
  Z.div_mod_to_equations. lia.
Qed.

Lemma locabs_timeOf (f : dateFields) (ns : Z) :
  validDateTime f ->
  locabs (mkTime (unixOf f) ns (offsetOf f))
  = (offsetOf f,
     absOf (f_year f) (f_month f) (f_day f) (f_hour f) (f_min f) (f_sec f)).
Proof.
  intros (Hy & Hm & Hd & Hhh & Hmm & Hss).
  unfold locabs. cbn [unixSec zoneOffset]. f_equal.
  rewrite unixOf_absOf.
  pose proof (absOf_range _ _ _ _ _ _ Hy Hm Hd Hhh Hmm Hss) as Hr.
  rewrite <- (Z.mod_small _ _ Hr) at 2. f_equal.
  unfold internalToAbsolute, internalToUnix. lia.
Qed.

(** Digits. *)
Lemma appendInt_2 (x : Z) : 0 <= x <= 99 -> appendInt x 2 = twoDigits x.
Proof.
  intros H. unfold appendInt, twoDigits.
  destruct (Z.ltb_spec x 0); [lia|].
  destruct (Z.ltb_spec x 100); [|lia]. reflexivity.
Qed.

Lemma appendInt_4 (x : Z) : 0 <= x <= 9999 -> appendInt x 4 = fourDigits x.
Proof.
  intros H. unfold appendInt, fourDigits, twoDigits.
  destruct (Z.ltb_spec x 0); [lia|].
  destruct (Z.ltb_spec x 10000); [|lia]. reflexivity.
Qed.

Lemma short_month_of_long (m : Z) :
  1 <= m <= 12 ->
  take 3 (nth_name longMonthNames (m - 1))
  = nth_name shortMonthNames (m - 1).
Proof. intros H. each_month H; reflexivity. Qed.

(** The zone that [Format] prints for the offset of the fields. *)
Lemma formatNumTZ_offsetOf (f : dateFields) :
  0 <= f_zhour f <= 99 -> 0 <= f_zmin f <= 59 ->
  (f_west f = true -> 0 < f_zhour f * 60 + f_zmin f) ->
  formatNumTZ (offsetOf f)
  = (if f_west f then "-" else "+")
    +:+ twoDigits (f_zhour f) +:+ twoDigits (f_zmin f).
Proof.
  intros Hzh Hzm Hwest. unfold formatNumTZ, offsetOf.
  set (zone := f_zhour f * 60 + f_zmin f).
  assert (Hq : Z.quot zone 60 = f_zhour f)
    by (subst zone; Z.quot_rem_to_equations; lia).
  assert (Hr : Z.rem zone 60 = f_zmin f)
    by (subst zone; Z.quot_rem_to_equations; lia).
  destruct (f_west f).
  - specialize (Hwest eq_refl).
    replace (Z.quot (- (zone * 60)) 60) with (- zone)
      by (Z.quot_rem_to_equations; lia).
    destruct (Z.ltb_spec (- zone) 0); [|lia].
    rewrite Z.opp_involutive, Hq, Hr.
    by rewrite !appendInt_2 by lia.
  - replace (Z.quot (zone * 60) 60) with zone
      by (Z.quot_rem_to_equations; lia).
    destruct (Z.ltb_spec zone 0); [subst zone; lia|].
    rewrite Hq, Hr. by rewrite !appendInt_2 by lia.
Qed.

(** [Format] prints the fields of a time as [render] writes them, with the
    weekday of the date. *)
Lemma Format_timeOf (f : dateFields) (ns : Z) :
  validDateTime f ->
  0 <= f_zhour f <= 99 -> 0 <= f_zmin f <= 59 ->
  (f_west f = true -> 0 < f_zhour f * 60 + f_zmin f) ->
  Format (mkTime (unixOf f) ns (offsetOf f)) = render (weekdayOf f) f.
Proof.
  intros Hv Hzh Hzm Hwest.
  pose proof Hv as (Hy & Hm & Hd & Hhh & Hmm & Hss).
  unfold Format, weekDayName, Weekday, formatAfterWeekDay.
  rewrite (locabs_timeOf f ns Hv). cbn [snd].
  rewrite absDate_absOf, absClock_absOf, absWeekday_absOf by lia.
  rewrite short_of_long by (apply Z.mod_pos_bound; lia).
  pose proof (daysIn_range (f_month f) (f_year f) Hm) as Hdim.
  rewrite !appendInt_2, appendInt_4, short_month_of_long by lia.
  rewrite formatNumTZ_offsetOf by done.
  reflexivity.
Qed.

End calendar_facts.

(** ** [Parse] on a date written by [render] *)

Module parse_facts.
Import gostring time time_facts calendar_facts.

#[local] Arguments String.append !_ _ / : simpl nomatch.

Lemma digit_cases (k : Z) :
  0 <= k <= 9 ->
  k = 0 \/ k = 1 \/ k = 2 \/ k = 3 \/ k = 4 \/ k = 5 \/ k = 6 \/ k = 7
  \/ k = 8 \/ k = 9.
Proof. lia. Qed.

Ltac each_digit H :=
  apply digit_cases in H;
  destruct H as [->|[->|[->|[->|[->|[->|[->|[->|[->| ->]]]]]]]]].

(** The byte of a digit, which is not a space. *)
Lemma digit_byte (k : Z) :
  0 <= k <= 9 -> Z.of_N (N_of_ascii (of_byte (48 + k))) = 48 + k.
Proof. intros H. each_digit H; reflexivity. Qed.

Lemma digit_not_space (k : Z) :
  0 <= k <= 9 -> Ascii.eqb (of_byte (48 + k)) " " = false.
Proof. intros H. each_digit H; reflexivity. Qed.

Lemma twoDigits_cons (x : Z) (rest : string) :
  twoDigits x +:+ rest
  = String (of_byte (48 + x / 10)) (String (of_byte (48 + x mod 10)) rest).
Proof. reflexivity. Qed.

Lemma two_digits_range (x : Z) :
  0 <= x <= 99 -> 0 <= x / 10 <= 9 /\ 0 <= x mod 10 <= 9.
Proof. intros H. Z.div_mod_to_equations. lia. Qed.

Lemma getnum_twoDigits (x : Z) (rest : string) (fixed : bool) :
  0 <= x <= 99 -> getnum (twoDigits x +:+ rest) fixed = Some (x, rest).
Proof.
  intros Hx. destruct (two_digits_range x Hx) as [Ha Hb].
  rewrite twoDigits_cons. unfold getnum, isDigit, byte_at.
  cbn [String.get drop]. rewrite !digit_byte by done.
  destruct (Z.leb_spec 48 (48 + x / 10)); [|lia].
  destruct (Z.leb_spec (48 + x / 10) 57); [|lia].
  destruct (Z.leb_spec 48 (48 + x mod 10)); [|lia].
  destruct (Z.leb_spec (48 + x mod 10) 57); [|lia].
  cbn [andb negb]. do 2 f_equal. Z.div_mod_to_equations. lia.
Qed.

Lemma cutspace_twoDigits (x : Z) (rest : string) :
  0 <= x <= 99 -> cutspace (twoDigits x +:+ rest) = twoDigits x +:+ rest.
Proof.
  intros Hx. destruct (two_digits_range x Hx) as [Ha Hb].
  rewrite twoDigits_cons. cbn [cutspace]. by rewrite digit_not_space.
Qed.

(** [skip] over the punctuation of the layout. *)
Lemma skip_comma_space (s : string) :
  skip (", " +:+ s) ", " = Some (cutspace s).
Proof. reflexivity. Qed.

Lemma skip_space (s : string) : skip (" " +:+ s) " " = Some (cutspace s).
Proof. reflexivity. Qed.

Lemma skip_colon (s : string) : skip (":" +:+ s) ":" = Some s.
Proof. reflexivity. Qed.

Lemma skip_nothing (s : string) : skip s "" = Some s.
Proof. reflexivity. Qed.

(** Months. *)
Lemma lookup_shortMonthNames (m : Z) (rest : string) :
  1 <= m <= 12 ->
  lookup shortMonthNames (nth_name shortMonthNames (m - 1) +:+ rest)
  = Some (m - 1, rest).
Proof.
  intros H. unfold lookup, shortMonthNames at 1.
  each_month H;
    rewrite ?lookup_from_miss by reflexivity;
    by rewrite lookup_from_hit by reflexivity.
Qed.

Lemma cutspace_month (m : Z) (rest : string) :
  1 <= m <= 12 ->
  cutspace (nth_name shortMonthNames (m - 1) +:+ rest)
  = nth_name shortMonthNames (m - 1) +:+ rest.
Proof. intros H. each_month H; reflexivity. Qed.

(** Years. *)
Lemma atoi_fourDigits (y : Z) :
  0 <= y <= 9999 -> atoi (fourDigits y) = Some y.
Proof.
  intros Hy.
  assert (Hall : forallb (fun y => match atoi (fourDigits y) with
                                  | Some v => v =? y
                                  | None => false
                                  end) (seqZ 0 10000) = true)
    by (vm_compute; reflexivity).
  rewrite <- Is_true_true in Hall.
  rewrite forallb_True, Forall_forall in Hall.
  specialize (Hall y). rewrite elem_of_seqZ in Hall.
  specialize (Hall ltac:(lia)).
  destruct (atoi (fourDigits y)) as [v|]; [|done].
  apply Is_true_true, Z.eqb_eq in Hall. by subst.
Qed.

Lemma fourDigits_cons (y : Z) (rest : string) :
  fourDigits y +:+ rest
  = String (of_byte (48 + y / 100 / 10))
      (String (of_byte (48 + (y / 100) mod 10))
         (String (of_byte (48 + (y mod 100) / 10))
            (String (of_byte (48 + (y mod 100) mod 10)) rest))).
Proof. reflexivity. Qed.

Lemma parseLongYear_fourDigits (y : Z) (rest : string) :
  0 <= y <= 9999 ->
  parseLongYear (fourDigits y +:+ rest) = Some (y, rest).
Proof.
  intros Hy. unfold parseLongYear.
  assert (Hlen : String.length (fourDigits y) = 4%nat) by reflexivity.
  rewrite len_app. unfold len at 1. rewrite Hlen.
  pose proof (len_nonneg rest).
  destruct (Z.ltb_spec (Z.of_nat 4 + len rest) 4); [lia|].
  assert (Hd : isDigit (fourDigits y +:+ rest) 0 = true).
  { rewrite fourDigits_cons. unfold isDigit, byte_at. cbn [String.get].
    assert (0 <= y / 100 / 10 <= 9) by (Z.div_mod_to_equations; lia).
    rewrite digit_byte by done.
    apply andb_true_iff. split; apply Z.leb_le; lia. }
  rewrite Hd. cbn [orb negb].
  rewrite <- Hlen at 1. rewrite take_app_length, atoi_fourDigits by done.
  cbn [mbind option_bind]. rewrite <- Hlen. by rewrite drop_app_length.
Qed.

Lemma cutspace_fourDigits (y : Z) (rest : string) :
  0 <= y <= 9999 -> cutspace (fourDigits y +:+ rest) = fourDigits y +:+ rest.
Proof.
  intros Hy. rewrite fourDigits_cons. cbn [cutspace].
  rewrite digit_not_space; [done|]. Z.div_mod_to_equations. lia.
Qed.


(** Seconds followed by the space before the zone: no fraction. *)
Lemma parseZeroSecond_twoDigits (x : Z) (rest : string) :
  0 <= x <= 59 ->
  parseZeroSecond (twoDigits x +:+ " " +:+ rest)
  = Some (x, 0, " " +:+ rest).
Proof.
  intros Hx. unfold parseZeroSecond.
  rewrite getnum_twoDigits by lia. cbn [mbind option_bind].
  destruct (Z.ltb_spec x 0); [lia|]. destruct (Z.leb_spec 60 x); [lia|].
  cbn [orb]. change (byte_at (" " +:+ rest) 0) with (Some 32).
  cbv beta iota. change (commaOrPeriod 32) with false.
  by rewrite andb_false_r.
Qed.

(** The zone: a sign and four digits, up to 24 hours and 60 minutes. *)
Lemma parseNumTZ_digits (west : bool) (zh zm : Z) :
  0 <= zh <= 99 -> 0 <= zm <= 99 ->
  parseNumTZ ((if west then "-" else "+")
              +:+ twoDigits zh +:+ twoDigits zm)
  = if (24 <? zh) || (60 <? zm) then None
    else Some (if west then - ((zh * 60 + zm) * 60)
               else (zh * 60 + zm) * 60, "").
Proof.
  intros Hzh Hzm. unfold parseNumTZ.
  assert (Hh : forall sign : ascii,
             take 2 (drop 1 (String sign (twoDigits zh +:+ twoDigits zm)))
             = twoDigits zh +:+ "") by reflexivity.
  assert (Hm : forall sign : ascii,
             take 2 (drop 3 (String sign (twoDigits zh +:+ twoDigits zm)))
             = twoDigits zm +:+ "") by reflexivity.
  assert (Hl : forall sign : ascii,
             len (String sign (twoDigits zh +:+ twoDigits zm)) = 5)
    by reflexivity.
  assert (Hr : forall sign : ascii,
             drop 5 (String sign (twoDigits zh +:+ twoDigits zm)) = "")
    by reflexivity.
  destruct west; cbn [String.append];
    rewrite Hl, Hh, Hm, Hr, !getnum_twoDigits by done;
    cbn [mbind option_bind];
    change (getnum "00" true) with (Some (0, ""));
    cbn [mbind option_bind];
    change (60 <? 0) with false; rewrite orb_false_r;
    (destruct ((24 <? zh) || (60 <? zm)); [reflexivity|]);
    rewrite Z.add_0_r; reflexivity.
Qed.

Lemma cutspace_sign (west : bool) (rest : string) :
  cutspace ((if west then "-" else "+") +:+ rest)
  = (if west then "-" else "+") +:+ rest.
Proof. by destruct west. Qed.

Lemma parseAfterWeekDay_render (f : dateFields) :
  validDateTime f ->
  0 <= f_zhour f <= 99 -> 0 <= f_zmin f <= 99 ->
  parseAfterWeekDay
    (", " +:+ twoDigits (f_day f)
     +:+ " " +:+ nth_name shortMonthNames (f_month f - 1)
     +:+ " " +:+ fourDigits (f_year f)
     +:+ " " +:+ twoDigits (f_hour f)
     +:+ ":" +:+ twoDigits (f_min f)
     +:+ ":" +:+ twoDigits (f_sec f)
     +:+ " " +:+ (if f_west f then "-" else "+")
     +:+ twoDigits (f_zhour f) +:+ twoDigits (f_zmin f))
  = if (24 <? f_zhour f) || (60 <? f_zmin f) then None
    else Some (timeOf f).
Proof.
  intros (Hy & Hm & Hd & Hhh & Hmm & Hss) Hzh Hzm.
  pose proof (daysIn_range (f_month f) (f_year f) Hm) as Hdim.
  unfold parseAfterWeekDay.
  rewrite skip_comma_space, cutspace_twoDigits by lia.
  cbn [mbind option_bind]. rewrite getnum_twoDigits by lia.
  cbn [mbind option_bind]. rewrite skip_space, cutspace_month by lia.
  cbn [mbind option_bind]. rewrite lookup_shortMonthNames by lia.
  cbn [mbind option_bind]. rewrite skip_space, cutspace_fourDigits by lia.
  cbn [mbind option_bind]. rewrite parseLongYear_fourDigits by lia.
  cbn [mbind option_bind]. rewrite skip_space, cutspace_twoDigits by lia.
  cbn [mbind option_bind]. rewrite getnum_twoDigits by lia.
  cbn [mbind option_bind].
  destruct (Z.ltb_spec (f_hour f) 0); [lia|].
  destruct (Z.leb_spec 24 (f_hour f)); [lia|]. cbn [orb].
  rewrite skip_colon. cbn [mbind option_bind].
  rewrite getnum_twoDigits by lia. cbn [mbind option_bind].
  destruct (Z.ltb_spec (f_min f) 0); [lia|].
  destruct (Z.leb_spec 60 (f_min f)); [lia|]. cbn [orb].
  rewrite skip_colon. cbn [mbind option_bind].
  rewrite parseZeroSecond_twoDigits by lia. cbn [mbind option_bind].
  rewrite skip_space, cutspace_sign. cbn [mbind option_bind].
  rewrite parseNumTZ_digits by lia.
  destruct ((24 <? f_zhour f) || (60 <? f_zmin f)); [reflexivity|].
  cbn [mbind option_bind]. rewrite skip_nothing. cbn [mbind option_bind].
  change (len "" =? 0) with true. cbn [negb].
  replace (f_month f - 1 + 1) with (f_month f) by lia.
  destruct (Z.ltb_spec (f_day f) 1); [lia|].
  destruct (Z.ltb_spec (daysIn (f_month f) (f_year f)) (f_day f)); [lia|].
  cbn [orb].
  set (off := if f_west f then _ else _).
  assert (Hoff : off = offsetOf f).
  { subst off. unfold offsetOf. by destruct (f_west f). }
  assert (Hne : (off =? -1) = false).
  { apply Z.eqb_neq. subst off. destruct (f_west f); lia. }
  rewrite Hne. cbn [negb]. f_equal.
  rewrite Date_absOf by lia. unfold addSec, setLoc, timeOf.
  cbn [unixSec nsec zoneOffset]. rewrite unixOf_absOf, Hoff. f_equal; lia.
Qed.

Lemma Parse_render (w : Z) (f : dateFields) :
  0 <= w < 7 -> validDateTime f ->
  0 <= f_zhour f <= 99 -> 0 <= f_zmin f <= 99 ->
  Parse (render w f)
  = if (24 <? f_zhour f) || (60 <? f_zmin f) then None
    else Some (timeOf f).
Proof.
  intros Hw Hv Hzh Hzm. unfold render.
  rewrite Parse_weekday by done. by apply parseAfterWeekDay_render.
Qed.

(** *** What [Parse] has checked when it succeeds *)

Lemma getnum_range (s rest : string) (fixed : bool) (v : Z) :
  getnum s fixed = Some (v, rest) -> 0 <= v <= 99.
Proof.
  unfold getnum, isDigit, byte_at.
  destruct (String.get 0 s) as [a0|]; [|done].
  cbn [negb].
  destruct (Z.leb_spec 48 (Z.of_N (N_of_ascii a0))); [|done].
  destruct (Z.leb_spec (Z.of_N (N_of_ascii a0)) 57); [|done].
  cbn [andb negb].
  destruct (String.get 1 s) as [a1|].
  - destruct (Z.leb_spec 48 (Z.of_N (N_of_ascii a1)));
      [destruct (Z.leb_spec (Z.of_N (N_of_ascii a1)) 57)|];
      cbn [andb negb]; destruct fixed; intros [= <- _]; lia.
  - destruct fixed; intros [= <- _]; lia.
Qed.

Lemma lookup_from_range (i j : Z) (tab : list string) (val rest : string) :
  lookup_from i tab val = Some (j, rest) ->
  i <= j < i + Z.of_nat (length tab).
Proof.
  revert i. induction tab as [|v tab IH]; intros i; [done|].
  cbn [lookup_from length].
  destruct (_ && _).
  - intros [= <- _]. lia.
  - intros H. apply IH in H. lia.
Qed.

(** The number that [leadingInt] reads from digits alone. *)
Lemma leadingInt_from_bound (s : string) (x v : Z) :
  0 <= x ->
  leadingInt_from x s = Some (v, "") ->
  x * 10 ^ len s <= v < (x + 1) * 10 ^ len s.
Proof.
  revert x. induction s as [|a r IH]; intros x Hx.
  - cbn [leadingInt_from]. intros [= <-].
    change (len "") with 0. rewrite Z.pow_0_r. lia.
  - cbn [leadingInt_from]. cbv zeta.
    destruct (Z.ltb_spec (Z.of_N (N_of_ascii a)) 48); [done|].
    destruct (Z.ltb_spec 57 (Z.of_N (N_of_ascii a))); [done|].
    cbn [orb]. destruct (_ <? x); [done|].
    destruct (2 ^ 63 <? _); [done|].
    intros Hrec. apply IH in Hrec; [|lia].
    replace (len (String a r)) with (len r + 1)
      by (unfold len; cbn [String.length]; lia).
    pose proof (len_nonneg r).
    rewrite Z.pow_add_r, Z.pow_1_r by lia.
    assert (0 < 10 ^ len r) by (apply Z.pow_pos_nonneg; lia).
    nia.
Qed.

(** [atoi] on a string that starts with a digit. *)
Lemma atoi_bound (s : string) (v : Z) :
  isDigit s 0 = true -> atoi s = Some v -> 0 <= v < 10 ^ len s.
Proof.
  unfold isDigit, byte_at, atoi.
  destruct s as [|a r]; [done|]. cbn [String.get].
  intros Hd.
  assert (Ha : Ascii.eqb a "-" = false /\ Ascii.eqb a "+" = false).
  { split; apply Ascii.eqb_neq; intros ->; done. }
  destruct Ha as [-> ->].
  unfold leadingInt.
  destruct (leadingInt_from 0 (String a r)) as [[q rem]|] eqn:Hl; [|done].
  destruct rem; [|done]. intros [= <-].
  apply leadingInt_from_bound in Hl; lia.
Qed.

Lemma len_take (n : nat) (s : string) : len (take n s) <= Z.of_nat n.
Proof.
  unfold len. revert s. induction n as [|n IH]; intros [|a s]; cbn; try lia.
  specialize (IH s). lia.
Qed.

Lemma parseLongYear_range (value rest : string) (y : Z) :
  parseLongYear value = Some (y, rest) -> 0 <= y <= 9999.
Proof.
  unfold parseLongYear.
  destruct (len value <? 4); [done|].
  destruct (isDigit value 0) eqn:Hd; [|done]. cbn [orb negb].
  destruct (atoi (take 4 value)) as [v|] eqn:Ha; [|done].
  cbn. intros [= <- _].
  apply atoi_bound in Ha.
  - pose proof (len_take 4 value).
    assert (10 ^ len (take 4 value) <= 10 ^ 4)
      by (apply Z.pow_le_mono_r; [lia|lia]).
    lia.
  - unfold isDigit, byte_at in *. by destruct value.
Qed.

Lemma parseNanoseconds_range (value : string) (n : nat) (ns : Z) :
  (2 <= n)%nat -> isDigit value 1 = true ->
  parseNanoseconds value n = Some ns -> 0 <= ns < 1000000000.
Proof.
  intros Hn Hd. unfold parseNanoseconds.
  destruct (byte_at value 0) as [c|]; [|done].
  destruct (commaOrPeriod c); [|done]. cbn [negb].
  destruct value as [|a [|b r]]; [done|done|].
  assert (Hb : forall s : string, isDigit (String b s) 0 = true).
  { intros s. exact Hd. }
  destruct (Z.ltb_spec 10 (Z.of_nat n)).
  - destruct (atoi _) as [v|] eqn:Ha; [|done].
    apply atoi_bound in Ha; [|apply Hb].
    destruct (v <? 0); [done|]. intros [= <-].
    pose proof (len_take 9 (drop 1 (take 10 (String a (String b r))))).
    assert (10 ^ len (take 9 (drop 1 (take 10 (String a (String b r)))))
            <= 10 ^ 9) by (apply Z.pow_le_mono_r; lia).
    change (10 - 1)%nat with 9%nat in Ha.
    change (10 ^ (10 - Z.of_nat 10)) with 1.
    change (10 ^ 9) with 1000000000 in *. lia.
  - destruct n as [|[|n]]; [lia|lia|].
    destruct (atoi _) as [v|] eqn:Ha; [|done].
    apply atoi_bound in Ha; [|apply Hb].
    destruct (v <? 0); [done|]. intros [= <-].
    pose proof (len_take (S (S n) - 1) (drop 1 (String a (String b r)))) as Hl.
    assert (Hp : 10 ^ len (take (S (S n) - 1) (drop 1 (String a (String b r))))
                 <= 10 ^ Z.of_nat (S (S n) - 1))
      by (apply Z.pow_le_mono_r; lia).
    assert (Hq : 10 ^ Z.of_nat (S (S n) - 1) * 10 ^ (10 - Z.of_nat (S (S n)))
                 = 10 ^ 9).
    { rewrite <- Z.pow_add_r by lia. f_equal. lia. }
    assert (0 < 10 ^ (10 - Z.of_nat (S (S n))))
      by (apply Z.pow_pos_nonneg; lia).
    change 1000000000 with (10 ^ 9). nia.
Qed.

Lemma parseZeroSecond_range (value rest : string) (sec ns : Z) :
  parseZeroSecond value = Some (sec, ns, rest) ->
  0 <= sec <= 59 /\ 0 <= ns < 1000000000.
Proof.
  unfold parseZeroSecond.
  destruct (getnum value true) as [[s v]|] eqn:Hg; [|done].
  cbn [mbind option_bind].
  destruct (Z.ltb_spec s 0); [done|]. destruct (Z.leb_spec 60 s); [done|].
  cbn [orb].
  destruct (byte_at v 0) as [c0|].
  - destruct (2 <=? len v); cbn [andb].
    + destruct (commaOrPeriod c0); cbn [andb].
      * destruct (isDigit v 1) eqn:Hd.
        -- destruct (parseNanoseconds _ _) as [n|] eqn:Hn; [|done].
           cbn. intros [= <- <- _].
           apply parseNanoseconds_range in Hn; [lia|lia|done].
        -- intros [= <- <- _]. lia.
      * intros [= <- <- _]. lia.
    + intros [= <- <- _]. lia.
  - intros [= <- <- _]. lia.
Qed.

Lemma parseNumTZ_range (value rest : string) (off : Z) :
  parseNumTZ value = Some (off, rest) ->
  exists (west : bool) (zh zm : Z),
    0 <= zh <= 24 /\ 0 <= zm <= 60
    /\ off = if west then - ((zh * 60 + zm) * 60) else (zh * 60 + zm) * 60.
Proof.
  unfold parseNumTZ. destruct (len value <? 5); [done|].
  destruct (getnum (take 2 (drop 1 value)) true) as [[hr ?]|] eqn:Hh; [|done].
  cbn [mbind option_bind].
  destruct (getnum (take 2 (drop 3 value)) true) as [[mm ?]|] eqn:Hm; [|done].
  cbn [mbind option_bind].
  change (getnum "00" true) with (Some (0, "")). cbn [mbind option_bind].
  apply getnum_range in Hh, Hm.
  destruct (Z.ltb_spec 24 hr); [done|]. destruct (Z.ltb_spec 60 mm); [done|].
  cbn [orb]. change (60 <? 0) with false. cbv iota.
  destruct value as [|a v]; [done|].
  change (byte_at (take 1 (String a v)) 0)
    with (Some (Z.of_N (N_of_ascii a))).
  destruct a as [[] [] [] [] [] [] [] []]; try done; cbv iota beta;
    intros [= <- _]; [exists false | exists true]; exists hr, mm;
    (split; [lia|]); (split; [lia|]); f_equal; lia.
Qed.

(** The time that [Parse] returns comes from a date and a time of the day
    that exist, a number of nanoseconds and a zone of at most 24 hours and
    60 minutes. *)
Lemma parseAfterWeekDay_inv (value : string) (t : Time) :
  parseAfterWeekDay value = Some t ->
  exists (y m d hh mm ss ns : Z) (west : bool) (zh zm : Z),
    validDateTime (mkDateFields y m d hh mm ss west zh zm)
    /\ 0 <= ns < 1000000000
    /\ 0 <= zh <= 24 /\ 0 <= zm <= 60
    /\ t = mkTime
             (absOf y m d hh mm ss + (absoluteToInternal + internalToUnix)
              - (if west then - ((zh * 60 + zm) * 60)
                 else (zh * 60 + zm) * 60))
             ns
             (if west then - ((zh * 60 + zm) * 60) else (zh * 60 + zm) * 60).
Proof.
  unfold parseAfterWeekDay.
  destruct (skip value ", ") as [v1|]; [|done]. cbn [mbind option_bind].
  destruct (getnum v1 true) as [[d v2]|] eqn:Hd; [|done].
  cbn [mbind option_bind].
  destruct (skip v2 " ") as [v3|]; [|done]. cbn [mbind option_bind].
  destruct (lookup shortMonthNames v3) as [[m0 v4]|] eqn:Hm; [|done].
  cbn [mbind option_bind].
  destruct (skip v4 " ") as [v5|]; [|done]. cbn [mbind option_bind].
  destruct (parseLongYear v5) as [[y v6]|] eqn:Hy; [|done].
  cbn [mbind option_bind].
  destruct (skip v6 " ") as [v7|]; [|done]. cbn [mbind option_bind].
  destruct (getnum v7 false) as [[hh v8]|] eqn:Hhh; [|done].
  cbn [mbind option_bind].
  destruct (Z.ltb_spec hh 0); [done|]. destruct (Z.leb_spec 24 hh); [done|].
  cbn [orb].
  destruct (skip v8 ":") as [v9|]; [|done]. cbn [mbind option_bind].
  destruct (getnum v9 true) as [[mm v10]|] eqn:Hmm; [|done].
  cbn [mbind option_bind].
  destruct (Z.ltb_spec mm 0); [done|]. destruct (Z.leb_spec 60 mm); [done|].
  cbn [orb].
  destruct (skip v10 ":") as [v11|]; [|done]. cbn [mbind option_bind].
  destruct (parseZeroSecond v11) as [[[ss ns] v12]|] eqn:Hss; [|done].
  cbn [mbind option_bind].
  destruct (skip v12 " ") as [v13|]; [|done]. cbn [mbind option_bind].
  destruct (parseNumTZ v13) as [[off v14]|] eqn:Hz; [|done].
  cbn [mbind option_bind].
  destruct (skip v14 "") as [v15|]; [|done]. cbn [mbind option_bind].
  destruct (len v15 =? 0); [|done]. cbn [negb].
  destruct (Z.ltb_spec d 1); [done|].
  destruct (Z.ltb_spec (daysIn (m0 + 1) y) d); [done|]. cbn [orb].
  apply lookup_from_range in Hm. cbn [length shortMonthNames] in Hm.
  apply parseLongYear_range in Hy.
  apply parseZeroSecond_range in Hss as [Hss Hns].
  apply parseNumTZ_range in Hz as (west & zh & zm & Hzh & Hzm & Hoff).
  assert (Hne : (off =? -1) = false).
  { apply Z.eqb_neq. subst off. destruct west; lia. }
  rewrite Hne. cbn [negb]. intros [= <-].
  exists y, (m0 + 1), d, hh, mm, ss, ns, west, zh, zm.
  split; [unfold validDateTime; cbn; lia|].
  split; [done|]. split; [done|]. split; [done|].
  rewrite Date_absOf by lia. unfold addSec, setLoc.
  cbn [unixSec nsec zoneOffset]. rewrite <- Hoff. f_equal; lia.
Qed.

Lemma Parse_inv (s : string) (t : Time) :
  Parse s = Some t ->
  exists (y m d hh mm ss ns : Z) (west : bool) (zh zm : Z),
    validDateTime (mkDateFields y m d hh mm ss west zh zm)
    /\ 0 <= ns < 1000000000
    /\ 0 <= zh <= 24 /\ 0 <= zm <= 60
    /\ t = mkTime
             (absOf y m d hh mm ss + (absoluteToInternal + internalToUnix)
              - (if west then - ((zh * 60 + zm) * 60)
                 else (zh * 60 + zm) * 60))
             ns
             (if west then - ((zh * 60 + zm) * 60) else (zh * 60 + zm) * 60).
Proof.
  unfold Parse. rewrite skip_nothing. cbn [mbind option_bind].
  destruct (lookup shortDayNames s) as [[w value]|]; [|done].
  cbn [mbind option_bind]. apply parseAfterWeekDay_inv.
Qed.

(** The fields that [Format] prints for a time that [Parse] returns: the
    zone is written again from its offset, 60 minutes as one more hour and
    zero with a plus sign. *)
Lemma Parse_Format (s : string) (t : Time) :
  Parse s = Some t ->
  exists (f : dateFields) (ns : Z),
    validDateTime f
    /\ 0 <= f_zhour f <= 25 /\ 0 <= f_zmin f <= 59
    /\ (f_west f = true -> 0 < f_zhour f * 60 + f_zmin f)
    /\ t = mkTime (unixOf f) ns (offsetOf f)
    /\ Format t = render (weekdayOf f) f.
Proof.
  intros Hp.
  destruct (Parse_inv s t Hp)
    as (y & m & d & hh & mm & ss & ns & west & zh & zm
        & Hv & Hns & Hzh & Hzm & ->).
  set (zone := zh * 60 + zm).
  set (f := mkDateFields y m d hh mm ss
              (west && negb (zone =? 0)) (zone / 60) (zone mod 60)).
  assert (Hq : 0 <= zone / 60 <= 25 /\ 0 <= zone mod 60 <= 59)
    by (subst zone; Z.div_mod_to_equations; lia).
  assert (Hoff : offsetOf f
                 = if west then - (zone * 60) else zone * 60).
  { unfold offsetOf, f. cbn [f_west f_zhour f_zmin].
    replace (zone / 60 * 60 + zone mod 60) with zone
      by (Z.div_mod_to_equations; lia).
    destruct west; cbn [andb]; [|done].
    destruct (Z.eqb_spec zone 0) as [Hz|]; [by rewrite Hz|done]. }
  assert (Hu : unixOf f
               = absOf y m d hh mm ss + (absoluteToInternal + internalToUnix)
                 - (if west then - (zone * 60) else zone * 60)).
  { rewrite unixOf_absOf, Hoff. reflexivity. }
  exists f, ns.
  assert (Hwest : f_west f = true -> 0 < f_zhour f * 60 + f_zmin f).
  { unfold f. cbn [f_west f_zhour f_zmin].
    intros [_ Hnz%negb_true_iff%Z.eqb_neq]%andb_true_iff.
    Z.div_mod_to_equations. lia. }
  split; [exact Hv|]. split; [apply Hq|]. split; [apply Hq|].
  split; [exact Hwest|].
  rewrite <- Hu, <- Hoff. split; [done|].
  apply Format_timeOf; [exact Hv|cbn; lia|apply Hq|exact Hwest].
Qed.

End parse_facts.

(** ** The dates that the validator accepts *)

Section date_language.
Import gostring time time_facts calendar_facts parse_facts.

(** A date written in the format, with its weekday, is accepted. *)
Lemma rendered_accepted (f : dateFields) :
  validFields f -> validateRSSDate (render (weekdayOf f) f) = None.
Proof.
  intros (Hy & Hm & Hd & Hhh & Hmm & Hss & Hzh & Hzm & Hwest).
  assert (Hdt : validDateTime f) by (unfold validDateTime; tauto).
  apply validateRSSDate_accept with (timeOf f).
  - rewrite Parse_render; [|apply Z.mod_pos_bound; lia|done|lia|lia].
    destruct (Z.ltb_spec 24 (f_zhour f)); [lia|].
    destruct (Z.ltb_spec 60 (f_zmin f)); [lia|]. done.
  - apply Format_timeOf; [done|lia|lia|done].
Qed.

(** An accepted string is a date written in the format. *)
Lemma accepted_rendered (s : string) :
  validateRSSDate s = None -> exists f, writtenDate s f.
Proof.
  intros (t & Hp & Hf)%validateRSSDate_None_inv.
  destruct (Parse_Format s t Hp)
    as (f & ns & Hv & Hzh & Hzm & Hwest & Ht & Hfmt).
  exists f. rewrite Hf in Hfmt. split; [|exact Hfmt].
  rewrite Hfmt in Hp.
  rewrite Parse_render in Hp;
    [|apply Z.mod_pos_bound; lia|exact Hv|lia|lia].
  destruct (Z.ltb_spec 24 (f_zhour f)); [done|].
  destruct Hv as (Hy & Hm & Hd & Hhh & Hmm & Hss).
  unfold validFields. repeat (split; [lia|]). exact Hwest.
Qed.

(** X12. The date validator accepts exactly the strings that write a date
    that exists, in a year of four digits, a time of the day and a zone of
    at most 24 hours and 59 minutes in the format
    [<Weekday>, <DD> <Mon> <YYYY> <HH>:<MM>:<SS> <+-ZZZZ>], every number with
    all its digits, the weekday being the one of the date and the sign of a
    zero zone being [+]. *)
Theorem validateRSSDate_accepts_iff (s : string) :
  validateRSSDate s = None
  <-> exists f, validFields f /\ s = render (weekdayOf f) f.
Proof.
  split; [apply accepted_rendered|].
  intros (f & Hv & ->). by apply rendered_accepted.
Qed.

Lemma Parse_render_valid (w : Z) (f : dateFields) :
  0 <= w < 7 -> validFields f -> Parse (render w f) = Some (timeOf f).
Proof.
  intros Hw (Hy & Hm & Hd & Hhh & Hmm & Hss & Hzh & Hzm & Hwest).
  rewrite Parse_render; [|done|unfold validDateTime; tauto|lia|lia].
  destruct (Z.ltb_spec 24 (f_zhour f)); [lia|].
  destruct (Z.ltb_spec 60 (f_zmin f)); [lia|]. done.
Qed.

(** X13. [Parse] reads a date written in this format, under any of the
    seven weekday names, as the instant of the date and the time in the
    zone, and keeps the offset of the zone. *)
Theorem Parse_rendered_instant (w : Z) (f : dateFields) :
  0 <= w < 7 -> validFields f ->
  Parse (render w f) = Some (mkTime (unixOf f) 0 (offsetOf f)).
Proof. apply Parse_render_valid. Qed.

Lemma Parse_rendered_instant_witness :
  Parse "Tue, 02 Jan 2006 15:04:05 -0700"
  = Some (mkTime 1136239445 0 (-25200)).
Proof.
  refine (Parse_rendered_instant 2
            (mkDateFields 2006 1 2 15 4 5 true 7 0) _ _).
  - lia.
  - vm_compute. intuition (discriminate || reflexivity).
Defined.

(** X14. On two dates written in this format, under any weekday names, the
    consistency rule returns no error exactly when the date and time of the
    one, less its zone, is the date and time of the other, less its zone. *)
Theorem validatePubDateUpdated_rendered (r : RSS.t) (it : Item.t)
    (rest : list Item.t) (w1 w2 : Z) (f1 f2 : dateFields) :
  Channel.Items (RSS.Channel r) = it :: rest ->
  0 <= w1 < 7 -> 0 <= w2 < 7 ->
  validFields f1 -> validFields f2 ->
  Channel.PubDate (RSS.Channel r) = render w1 f1 ->
  Item.PubDate it = render w2 f2 ->
  (RSS.validatePubDateUpdated r = None <-> unixOf f1 = unixOf f2)
  /\ (RSS.validatePubDateUpdated r
      = Some "publication dates of channel and item do not match"
      <-> unixOf f1 <> unixOf f2).
Proof.
  intros Hitems Hw1 Hw2 Hv1 Hv2 Hc Hi.
  rewrite (validatePubDateUpdated_parsed r it rest
             (mkTime (unixOf f1) 0 (offsetOf f1))
             (mkTime (unixOf f2) 0 (offsetOf f2)) Hitems).
  - unfold Equal. cbn [unixSec nsec]. rewrite Z.eqb_refl, andb_true_r.
    destruct (Z.eqb_spec (unixOf f1) (unixOf f2)); split; split; done.
  - rewrite Hc. by apply Parse_render_valid.
  - rewrite Hi. by apply Parse_render_valid.
Qed.

(** Midnight in UTC and four in the afternoon of the day before, eight
    hours to the west. *)
Lemma validatePubDateUpdated_rendered_witness :
  RSS.validatePubDateUpdated
    (feed "Tue, 01 Jan 2019 00:00:00 +0000"
       [item "a" "Mon, 31 Dec 2018 16:00:00 -0800" "g"]) = None.
Proof.
  refine (proj2 (proj1 (validatePubDateUpdated_rendered
            (feed "Tue, 01 Jan 2019 00:00:00 +0000"
               [item "a" "Mon, 31 Dec 2018 16:00:00 -0800" "g"])
            _ _ 2 1
            (mkDateFields 2019 1 1 0 0 0 false 0 0)
            (mkDateFields 2018 12 31 16 0 0 true 8 0)
            eq_refl _ _ _ _ eq_refl eq_refl)) _).
  - lia.
  - lia.
  - vm_compute. intuition (discriminate || reflexivity).
  - vm_compute. intuition (discriminate || reflexivity).
  - vm_compute. reflexivity.
Defined.

(** X15. The error of the date validator on a string that [Parse] reads
    is the day-of-week error, and the string it quotes as expected writes
    the same date, time to the second and zone in the format, the zone with
    less than 60 minutes and up to 25 hours.  The validator accepts the
    expected string unless its zone has 25 hours. *)
Theorem validateRSSDate_expected (s e : string) (t : Time) :
  Parse s = Some t ->
  validateRSSDate s = Some e ->
  exists f : dateFields,
    validDateTime f
    /\ 0 <= f_zhour f <= 25 /\ 0 <= f_zmin f <= 59
    /\ unixSec t = unixOf f /\ zoneOffset t = offsetOf f
    /\ e = "day of week is not correct: expected "
           +:+ render (weekdayOf f) f +:+ ", got " +:+ s
    /\ (f_zhour f <= 24 ->
        validateRSSDate (render (weekdayOf f) f) = None).
Proof.
  intros Hp He.
  destruct (Parse_Format s t Hp)
    as (f & ns & Hv & Hzh & Hzm & Hwest & Ht & Hfmt).
  exists f. split; [done|]. split; [done|]. split; [done|].
  split; [by rewrite Ht|]. split; [by rewrite Ht|].
  unfold validateRSSDate in He. rewrite Hp in He.
  destruct (String.eqb s (Format t)) eqn:Heq; [done|].
  cbn [negb] in He. injection He as <-. rewrite Hfmt.
  split; [done|]. intros H24. apply rendered_accepted.
  destruct Hv as (Hy & Hm & Hd & Hhh & Hmm & Hss).
  unfold validFields. repeat (split; [lia|]). exact Hwest.
Qed.

(** A zone of 24 hours and 60 minutes parses; the expected string has 25
    hours. *)
Lemma validateRSSDate_expected_witness :
  exists f : dateFields,
    validDateTime f
    /\ 0 <= f_zhour f <= 25 /\ 0 <= f_zmin f <= 59
    /\ 1709161199 = unixOf f /\ 90000 = offsetOf f
    /\ "day of week is not correct: expected "
       +:+ "Thu, 29 Feb 2024 23:59:59 +2500"
       +:+ ", got " +:+ "Thu, 29 Feb 2024 23:59:59 +2460"
       = "day of week is not correct: expected "
         +:+ render (weekdayOf f) f +:+ ", got "
         +:+ "Thu, 29 Feb 2024 23:59:59 +2460"
    /\ (f_zhour f <= 24 ->
        validateRSSDate (render (weekdayOf f) f) = None).
Proof.
  apply (validateRSSDate_expected "Thu, 29 Feb 2024 23:59:59 +2460" _
           (mkTime 1709161199 0 90000)).
  - vm_compute. reflexivity.
  - vm_compute. reflexivity.
Defined.

(** X17. A feed is valid exactly when its channel date and the dates of all
    its items are dates written in the format, each with its own weekday,
    no two items have the same identifier, and the feed has no item or the
    date of its first item is the same instant as the channel date. *)
Theorem Validate_None_iff (r : RSS.t) :
  RSS.Validate r = None
  <-> exists fc : dateFields,
        writtenDate (Channel.PubDate (RSS.Channel r)) fc
        /\ Forall (fun it => exists f, writtenDate (Item.PubDate it) f)
             (Channel.Items (RSS.Channel r))
        /\ NoDup (guidsOf (Channel.Items (RSS.Channel r)))
        /\ match Channel.Items (RSS.Channel r) with
           | [] => True
           | it :: _ =>
               exists f, writtenDate (Item.PubDate it) f
                         /\ unixOf f = unixOf fc
           end.
Proof.
  rewrite Validate_None_rules. split.
  - intros (Hchan & Hguids & Hdates & Hupd).
    unfold RSS.validatePubDate in Hchan.
    destruct (validateRSSDate (Channel.PubDate (RSS.Channel r))) eqn:Hc;
      [done|].
    apply accepted_rendered in Hc as [fc Hfc]. exists fc.
    apply validateItemDates_None_Forall in Hdates.
    split; [done|]. split.
    { eapply Forall_impl; [exact Hdates|]. intros it. apply accepted_rendered. }
    split; [by apply validateItemGUIDs_None_NoDup|].
    destruct (Channel.Items (RSS.Channel r)) as [|it rest] eqn:Hitems; [done|].
    apply Forall_cons in Hdates as [Hit _].
    apply accepted_rendered in Hit as [f Hf]. exists f. split; [done|].
    destruct Hfc as [Hvc Hsc], Hf as [Hv Hs].
    rewrite (validatePubDateUpdated_parsed r it rest (timeOf fc) (timeOf f)
               Hitems) in Hupd.
    + destruct (Equal (timeOf fc) (timeOf f)) eqn:Heq; [|done].
      apply Equal_spec in Heq as [Heq _]. by symmetry.
    + rewrite Hsc. apply Parse_render_valid; [|done].
      apply Z.mod_pos_bound. lia.
    + rewrite Hs. apply Parse_render_valid; [|done].
      apply Z.mod_pos_bound. lia.
  - intros (fc & [Hvc Hsc] & Hdates & Hnd & Hfirst).
    split; [|split; [|split]].
    + unfold RSS.validatePubDate. rewrite Hsc.
      by rewrite rendered_accepted.
    + by apply validateItemGUIDs_distinct.
    + apply validateItemDates_loop_None.
      eapply Forall_impl; [exact Hdates|].
      intros it (f & Hv & Hs). unfold dateAccepted. rewrite Hs.
      by apply rendered_accepted.
    + destruct (Channel.Items (RSS.Channel r)) as [|it rest] eqn:Hitems.
      { unfold RSS.validatePubDateUpdated. by rewrite Hitems. }
      destruct Hfirst as (f & [Hv Hs] & Heq).
      rewrite (validatePubDateUpdated_parsed r it rest (timeOf fc) (timeOf f)
                 Hitems).
      * unfold Equal, timeOf. cbn [unixSec nsec].
        by rewrite Heq, !Z.eqb_refl.
      * rewrite Hsc. apply Parse_render_valid; [|done].
        apply Z.mod_pos_bound. lia.
      * rewrite Hs. apply Parse_render_valid; [|done].
        apply Z.mod_pos_bound. lia.
Qed.
End date_language.
